(** * The 1DOF turbine simulator of WTC_toolbox/sim.py

    A shallow embedding of [Sim.__init__] and [Sim.sim_ws_series].

    - numpy float64 values are Rocq's primitive binary64 floats, so every
      product, quotient and sum below rounds as the Python expression does;
    - numpy arrays are lists read with [getitem] and written with [setitem],
      both raising [IndexError] out of range as Python does;
    - the collaborators that live outside sim.py (the ccblade evaluator
      [turbine.cc_rotor.evaluate], the surface [turbine.Cq.interp_surface]
      and the compiled controller behind [controller_int.call_controller])
      are variables of the section: state passing functions over an
      arbitrary [world], each of which may raise;
    - the simulator runs in a small state and exception monad whose store is
      the world of the collaborators and the log of the calls made to them
      (arguments and outcome), so that the order and the arguments of the
      calls can be stated;
    - [**] on floats is the [pow] of the platform, a variable as well.

    The arrays are taken to be float64 arrays, as the docstring of
    [sim_ws_series] says (an integer time array would make
    [np.ones_like(t_array)], hence [gen_torque], an integer array);
    printing and plotting are left out. *)

From Stdlib Require Import ZArith Floats Ascii String Lia.
From stdpp Require Import base list.

Set Warnings "-inexact-float".

(** ** Python values and exceptions *)

Inductive exn : Type :=
| IndexError
| Foreign (name : string).

Inductive result (A : Type) : Type :=
| Ok (a : A)
| Raise (e : exn).
Arguments Ok {A} a.
Arguments Raise {A} e.

Definition raised {A} (r : result A) : bool :=
  match r with Ok _ => false | Raise _ => true end.

(** One call to a collaborator: the arguments it received and what came
    back, a value or an exception. *)
Inductive event : Type :=
| EvEvaluate (ws rpm pitch : float) (out : result float)
| EvInterp (pitch tsr : float) (out : result float)
| EvController (t dt pitch gen_speed rot_speed ws : float)
    (out : result (float * float)).

Definition is_evaluate (e : event) : bool :=
  match e with EvEvaluate _ _ _ _ => true | _ => false end.

#[global] Instance float_inhabited : Inhabited float := populate 0%float.

(** ** Module constants of sim.py *)

Definition np_pi : float := 3.141592653589793%float.
Definition rpm2RadSec : float := (2.0 * np_pi / 60.0)%float.

(** ** The turbine object *)

(** Modelled from the spec: the turbine class is not part of the sources
    at hand. The record holds the attributes of [self.turbine] that sim.py
    reads ([TurbineName], [RotorRad], [Ng], [rho], [J]) and, as
    [gearbox_efficiency] and [generator_efficiency], the two efficiencies
    that the data model of the specification lists among the turbine
    parameters. *)
Record Turbine : Type := mkTurbine {
  TurbineName : string;
  RotorRad : float;
  Ng : float;
  rho : float;
  J : float;
  gearbox_efficiency : float;
  generator_efficiency : float
}.

Definition with_efficiencies (tb : Turbine) (gb gen : float) : Turbine :=
  {| TurbineName := TurbineName tb; RotorRad := RotorRad tb; Ng := Ng tb;
     rho := rho tb; J := J tb;
     gearbox_efficiency := gb; generator_efficiency := gen |}.

(** [Sim.__init__]: the controller interface is the collaborator
    [call_controller] of the section below. *)
Record Sim : Type := mkSim {
  turbine : Turbine;
  gb_eff : float;
  gen_eff : float
}.

Definition Sim_init (tb : Turbine) : Sim :=
  {| turbine := tb; gb_eff := 0.95%float; gen_eff := 0.95%float |}.

(** The six arrays that [sim_ws_series] declares, fills and saves. *)
Record Series : Type := mkSeries {
  bld_pitch : list float;
  rot_speed : list float;
  gen_speed : list float;
  aero_torque : list float;
  gen_torque : list float;
  gen_power : list float
}.

(** [np.ones_like(a)] and [a * k] for an array [a] and a scalar [k]. *)
Definition ones_like (a : list float) : list float :=
  replicate (length a) 1%float.

Definition scale (a : list float) (k : float) : list float :=
  (fun x => (x * k)%float) <$> a.

(** All six arrays of [a] have length [n]. *)
Definition lengths (n : nat) (a : Series) : Prop :=
  length (bld_pitch a) = n /\ length (rot_speed a) = n /\
  length (gen_speed a) = n /\ length (aero_torque a) = n /\
  length (gen_torque a) = n /\ length (gen_power a) = n.

(** Arrays [a] and [b] hold the same values at index [j]. *)
Definition same_at (j : nat) (a b : Series) : Prop :=
  bld_pitch a !! j = bld_pitch b !! j /\
  rot_speed a !! j = rot_speed b !! j /\
  gen_speed a !! j = gen_speed b !! j /\
  aero_torque a !! j = aero_torque b !! j /\
  gen_torque a !! j = gen_torque b !! j /\
  gen_power a !! j = gen_power b !! j.

(** ** The monad: a store threaded through code that may raise *)

Section Simulator.

Context {world : Type}.

Record store : Type := mkStore {
  wld : world;
  trace : list event
}.

Definition M (A : Type) : Type := store -> result A * store.

Definition ret {A} (a : A) : M A := fun s => (Ok a, s).

Definition bind {A B} (m : M A) (k : A -> M B) : M B :=
  fun s => match m s with
           | (Ok a, s') => k a s'
           | (Raise e, s') => (Raise e, s')
           end.

Definition raise {A} (e : exn) : M A := fun s => (Raise e, s).

(** [try: m except: h] with a bare [except], which catches everything. *)
Definition try_except {A} (m : M A) (h : M A) : M A :=
  fun s => match m s with
           | (Ok a, s') => (Ok a, s')
           | (Raise _, s') => h s'
           end.

Notation "x <- m ;; k" := (bind m (fun x => k))
  (at level 100, m at next level, right associativity).

Definition getitem (a : list float) (i : nat) : M float :=
  match a !! i with
  | Some x => ret x
  | None => raise IndexError
  end.

Definition setitem (a : list float) (i : nat) (v : float) : M (list float) :=
  if decide (i < length a) then ret (<[i:=v]> a) else raise IndexError.

(** ** The collaborators *)

(** [turbine.cc_rotor.evaluate(ws, [rpm], [pitch], coefficients=True)]:
    of the eight values it returns only [cq] is used. *)
Variable cc_evaluate : float -> float -> float -> world -> result float * world.

(** [turbine.Cq.interp_surface([pitch], tsr)]. *)
Variable interp_surface : float -> float -> world -> result float * world.

(** [controller_int.call_controller(t, dt, pitch, gen_speed, rot_speed, ws)],
    which returns the pair (generator torque, blade pitch). *)
Variable call_controller :
  float -> float -> float -> float -> float -> float ->
  world -> result (float * float) * world.

(** The [**] of the platform on floats. *)
Variable float_pow : float -> float -> float.

(** A call runs the collaborator on the current world and logs it. *)
Definition call {A} (ev : result A -> event)
    (f : world -> result A * world) : M A :=
  fun s => let r := f (wld s) in
           (fst r, {| wld := snd r; trace := trace s ++ [ev (fst r)] |}).

Definition evaluate (ws rpm pitch : float) : M float :=
  call (EvEvaluate ws rpm pitch) (cc_evaluate ws rpm pitch).

Definition interp (pitch tsr : float) : M float :=
  call (EvInterp pitch tsr) (interp_surface pitch tsr).

Definition controller (t dt pitch gs rs ws : float) : M (float * float) :=
  call (EvController t dt pitch gs rs ws) (call_controller t dt pitch gs rs ws).

(** [for i, x in enumerate(l): s = body i x s], counting from [i]. *)
Fixpoint for_enumerate {St : Type} (body : nat -> float -> St -> M St)
    (i : nat) (l : list float) (s : St) : M St :=
  match l with
  | [] => ret s
  | x :: l' => s' <- body i x s ;; for_enumerate body (S i) l' s'
  end.

(** ** [Sim.sim_ws_series] *)

Local Open Scope float_scope.

(** Lines 67-72: the output arrays. *)
Definition declare_arrays (tb : Turbine) (t_array : list float)
    (rotor_rpm_init init_pitch : float) : Series :=
  {| bld_pitch := scale (ones_like t_array) init_pitch;
     rot_speed := scale (scale (ones_like t_array) rotor_rpm_init) rpm2RadSec;
     gen_speed := scale (scale (ones_like t_array) rotor_rpm_init) (Ng tb);
     aero_torque := scale (ones_like t_array) 1000.0;
     gen_torque := ones_like t_array;
     gen_power := scale (ones_like t_array) 0.0 |}.

(** Lines 76-83: the evaluator is tried once; whatever it (or the indexing
    of its arguments) raises selects the interpolated tables. *)
Definition select_variant (ws_array : list float) (a : Series) : M bool :=
  try_except
    (ws1 <- getitem ws_array 1 ;;
     r0 <- getitem (rot_speed a) 0 ;;
     p0 <- getitem (bld_pitch a) 0 ;;
     _ <- evaluate ws1 (r0 / rpm2RadSec) p0 ;;
     ret false)
    (ret true).

(** Lines 92-99: the torque coefficient of step [i]. The two [if]s of the
    source test the same unchanged flag, hence one conditional here. *)
Definition load_cq (tb : Turbine) (use_interpolated : bool) (a : Series)
    (i : nat) (ws : float) : M float :=
  if use_interpolated then
    r <- getitem (rot_speed a) (i - 1) ;;
    let tsr := r * RotorRad tb / ws in
    p <- getitem (bld_pitch a) (i - 1) ;;
    interp p tsr
  else
    r <- getitem (rot_speed a) (i - 1) ;;
    p <- getitem (bld_pitch a) (i - 1) ;;
    evaluate ws (r / rpm2RadSec) p.

(** Lines 87-111: one turn of the loop. *)
Definition loop_body (self : Sim) (ws_array : list float) (dt : float)
    (use_interpolated : bool) (i : nat) (t : float) (a : Series) : M Series :=
  let tb := turbine self in
  let R := RotorRad tb in
  if Nat.eqb i 0 then ret a
  else
    ws <- getitem ws_array i ;;
    cq <- load_cq tb use_interpolated a i ws ;;
    aero_torque' <- setitem (aero_torque a) i
      (0.5 * rho tb * (np_pi * float_pow R 2) * cq * R * float_pow ws 2) ;;
    r_prev <- getitem (rot_speed a) (i - 1) ;;
    q_i <- getitem aero_torque' i ;;
    tq_prev <- getitem (gen_torque a) (i - 1) ;;
    rot_speed' <- setitem (rot_speed a) i
      (r_prev + (dt / J tb) * (q_i * gb_eff self - Ng tb * tq_prev)) ;;
    r_i <- getitem rot_speed' i ;;
    gen_speed' <- setitem (gen_speed a) i (r_i * Ng tb) ;;
    p_prev <- getitem (bld_pitch a) (i - 1) ;;
    g_i <- getitem gen_speed' i ;;
    r_i' <- getitem rot_speed' i ;;
    cmd <- controller t dt p_prev g_i r_i' ws ;;
    gen_torque' <- setitem (gen_torque a) i (fst cmd) ;;
    bld_pitch' <- setitem (bld_pitch a) i (snd cmd) ;;
    g_i' <- getitem gen_speed' i ;;
    tq_i <- getitem gen_torque' i ;;
    gen_power' <- setitem (gen_power a) i
      (g_i' * np_pi / 30.0 * tq_i * gen_eff self) ;;
    ret {| bld_pitch := bld_pitch'; rot_speed := rot_speed';
           gen_speed := gen_speed'; aero_torque := aero_torque';
           gen_torque := gen_torque'; gen_power := gen_power' |}.

(** Line 62. *)
Definition time_step (t_array : list float) : M float :=
  t1 <- getitem t_array 1 ;;
  t0 <- getitem t_array 0 ;;
  ret (t1 - t0).

Definition sim_ws_series (self : Sim) (t_array ws_array : list float)
    (rotor_rpm_init init_pitch : float) : M Series :=
  dt <- time_step t_array ;;
  let a := declare_arrays (turbine self) t_array rotor_rpm_init init_pitch in
  use_interpolated <- select_variant ws_array a ;;
  for_enumerate (loop_body self ws_array dt use_interpolated) 0 t_array a.

(** ** What one completed turn of the loop leaves behind

    The summaries below are what the proofs compare [loop_body] with. *)

(** Line 103. *)
Definition aero_formula (tb : Turbine) (cq ws : float) : float :=
  0.5 * rho tb * (np_pi * float_pow (RotorRad tb) 2) * cq * RotorRad tb
  * float_pow ws 2.

(** Line 104, read off the arrays [a] before turn [i]. *)
Definition next_rot_speed (self : Sim) (dt : float) (i : nat) (ws cq : float)
    (a : Series) : float :=
  let tb := turbine self in
  rot_speed a !!! (i - 1)%nat
  + (dt / J tb) * (aero_formula tb cq ws * gb_eff self
                   - Ng tb * gen_torque a !!! (i - 1)%nat).

(** The arrays after turn [i], from the arrays [a] before it, the wind
    speed [ws], the coefficient [cq] that the aerodynamic source returned
    and the pair [cmd] that the controller returned. *)
Definition write_step (self : Sim) (dt : float) (i : nat) (ws cq : float)
    (cmd : float * float) (a : Series) : Series :=
  let tb := turbine self in
  let q := aero_formula tb cq ws in
  let r := next_rot_speed self dt i ws cq a in
  let g := r * Ng tb in
  {| bld_pitch := <[i := snd cmd]> (bld_pitch a);
     rot_speed := <[i := r]> (rot_speed a);
     gen_speed := <[i := g]> (gen_speed a);
     aero_torque := <[i := q]> (aero_torque a);
     gen_torque := <[i := fst cmd]> (gen_torque a);
     gen_power := <[i := g * np_pi / 30.0 * fst cmd * gen_eff self]> (gen_power a) |}.

(** The query to the aerodynamic source at turn [i], read off arrays [a]. *)
Definition aero_event (tb : Turbine) (use_interpolated : bool) (a : Series)
    (i : nat) (ws : float) (out : result float) : event :=
  if use_interpolated then
    EvInterp (bld_pitch a !!! (i - 1)%nat)
             (rot_speed a !!! (i - 1)%nat * RotorRad tb / ws) out
  else
    EvEvaluate ws (rot_speed a !!! (i - 1)%nat / rpm2RadSec)
               (bld_pitch a !!! (i - 1)%nat) out.

(** The collaborator behind that query. *)
Definition aero_source (tb : Turbine) (use_interpolated : bool) (a : Series)
    (i : nat) (ws : float) : world -> result float * world :=
  if use_interpolated then
    interp_surface (bld_pitch a !!! (i - 1)%nat)
                   (rot_speed a !!! (i - 1)%nat * RotorRad tb / ws)
  else
    cc_evaluate ws (rot_speed a !!! (i - 1)%nat / rpm2RadSec)
                (bld_pitch a !!! (i - 1)%nat).

(** The call to the controller at turn [i], read off arrays [a]. *)
Definition controller_event (t dt ws : float) (a : Series) (i : nat) : event :=
  EvController t dt (bld_pitch a !!! (i - 1)%nat) (gen_speed a !!! i)
               (rot_speed a !!! i) ws
               (Ok (gen_torque a !!! i, bld_pitch a !!! i)).

(** The calls of turn [i] of a completed run, read off its final arrays
    and the coefficients [cqs] that the aerodynamic source returned. *)
Definition step_events (tb : Turbine) (use_interpolated : bool)
    (t_array ws_array : list float) (dt : float) (a : Series)
    (cqs : list float) (i : nat) : list event :=
  [ aero_event tb use_interpolated a i (ws_array !!! i) (Ok (cqs !!! i));
    controller_event (t_array !!! i) dt (ws_array !!! i) a i ].

(** The equations of lines 103-111 at index [i], read off arrays [a]. *)
Definition step_holds (self : Sim) (ws_array : list float) (dt : float)
    (a : Series) (cqs : list float) (i : nat) : Prop :=
  let tb := turbine self in
  aero_torque a !!! i = aero_formula tb (cqs !!! i) (ws_array !!! i) /\
  rot_speed a !!! i
    = rot_speed a !!! (i - 1)%nat
      + (dt / J tb) * (aero_torque a !!! i * gb_eff self
                       - Ng tb * gen_torque a !!! (i - 1)%nat) /\
  gen_speed a !!! i = rot_speed a !!! i * Ng tb /\
  gen_power a !!! i
    = gen_speed a !!! i * np_pi / 30.0 * gen_torque a !!! i * gen_eff self.

(** Every call that [m] logs satisfies [P], whether [m] returns or raises. *)
Definition logs {A} (P : event -> Prop) (m : M A) : Prop :=
  forall s r s', m s = (r, s') ->
    exists evs, trace s' = trace s ++ evs /\ Forall P evs.

(** The invariant of the loop, entered with arrays [a0] and store [s0].
    After the turns below [k]: the arrays keep their length, hold the
    entry values outside [1, k), satisfy the equations of the loop inside,
    and the log has grown by the calls of those turns. *)
Definition loop_invariant (self : Sim) (t_array ws_array : list float)
    (dt : float) (use_interpolated : bool) (a0 : Series) (s0 : store)
    (k : nat) (a : Series) (s : store) : Prop :=
  lengths (length t_array) a /\
  (forall j, ~ (1 <= j < k)%nat -> same_at j a a0) /\
  exists cqs, length cqs = k /\
    (forall i, (1 <= i < k)%nat ->
       (i < length ws_array)%nat /\ step_holds self ws_array dt a cqs i) /\
    trace s = trace s0 ++
      flat_map (step_events (turbine self) use_interpolated t_array ws_array
                            dt a cqs)
               (seq 1 (k - 1)).

End Simulator.

Arguments store world : clear implicits.
Arguments M world A : clear implicits.

(** ** More to say about the log *)

Definition is_interp (e : event) : bool :=
  match e with EvInterp _ _ _ => true | _ => false end.

Definition is_controller (e : event) : bool :=
  match e with EvController _ _ _ _ _ _ _ => true | _ => false end.

(** How many logged calls satisfy [p]. *)
Definition calls (p : event -> bool) (l : list event) : nat :=
  length (List.filter p l).

(** ** A concrete turbine, aerodynamic source and controller

    Stand-ins for the collaborators, used to run the simulator: a turbine
    with the dimensions of the NREL 5MW machine, no ccblade rotor (the
    attribute access raises), a flat torque coefficient surface and a
    controller that commands a torque proportional to the generator speed
    and steps the pitch by half a degree. The world counts the calls made
    to the controller. *)
Module Demo.
Local Open Scope float_scope.

Definition tb : Turbine :=
  {| TurbineName := "NREL5MW"; RotorRad := 63.0; Ng := 97.0; rho := 1.225;
     J := 38677056.0; gearbox_efficiency := 0.9; generator_efficiency := 0.9 |}.

Definition no_rotor (ws rpm pitch : float) (w : nat) : result float * nat :=
  (Raise (Foreign "AttributeError"), w).

Definition flat_rotor (ws rpm pitch : float) (w : nat) : result float * nat :=
  (Ok 0.03, w).

Definition flat_surface (pitch tsr : float) (w : nat) : result float * nat :=
  (Ok 0.02, w).

Definition p_controller (t dt pitch gs rs ws : float) (w : nat)
  : result (float * float) * nat :=
  (Ok (gs * 40.0, pitch + 0.5), S w).

(** [x ** 2], the only power that sim.py takes. *)
Definition square (x y : float) : float := x * x.

Definition s0 : store nat := {| wld := 0%nat; trace := [] |}.

(** A run on the interpolated tables. *)
Definition run (t_array ws_array : list float) (rpm pitch : float)
  : result Series * store nat :=
  sim_ws_series no_rotor flat_surface p_controller square
    (Sim_init tb) t_array ws_array rpm pitch s0.

(** A run on the evaluator. *)
Definition run_cc (t_array ws_array : list float) (rpm pitch : float)
  : result Series * store nat :=
  sim_ws_series flat_rotor flat_surface p_controller square
    (Sim_init tb) t_array ws_array rpm pitch s0.

Definition series_of (r : result Series * store nat) : Series :=
  match fst r with
  | Ok a => a
  | Raise _ => mkSeries [] [] [] [] [] []
  end.

(** Three samples one second apart, a steady wind of 10 m/s, and the same
    wind dropping to zero at the last sample; 10 rpm and 0 degrees to
    start with. *)
Definition t3 : list float := [0; 1; 2].
Definition ws3 : list float := [10; 10; 10].
Definition ws_calm : list float := [10; 10; 0].

Definition a3 : Series := series_of (run t3 ws3 10 0).
Definition s3 : store nat := snd (run t3 ws3 10 0).

Definition a_calm : Series := series_of (run t3 ws_calm 10 0).
Definition s_calm : store nat := snd (run t3 ws_calm 10 0).

Definition a_cc : Series := series_of (run_cc t3 ws3 10 0).
Definition s_cc : store nat := snd (run_cc t3 ws3 10 0).

End Demo.

(** * ROSCO_testing/run_Testing.py: [run_testing]

    [run_testing] checks its arguments, configures a [ROSCO_testing] object
    for the turbine and hands over to one of its four test methods. The
    class is not among the sources at hand: the object that its
    constructor returns is an argument here, a record of the five
    attributes that [run_testing] assigns, and the embedding ends where the
    test method is called, returning the object as configured and the
    method with its argument. Strings are byte strings; paths are joined
    as [posixpath.join] does, from a working directory that is an argument
    too.

    [str.lower] is modelled on the letters A-Z. The four test types that
    [run_testing] compares with are plain lower case ASCII without a k, and
    no string with a character outside ASCII lowers to one of them, so the
    comparisons come out as in Python. *)
Module RunTesting.

Inductive error : Type :=
| ValueError (msg : string)
| ListIndexError.

Record ROSCO_testing : Type := mkTesting {
  Turbine_Class : string;
  Turbulence_Class : string;
  FAST_directory : string;
  FAST_InputFile : string;
  rosco_path : string
}.

(** The test method that is called, with its argument. *)
Inductive test_call : Type :=
| ROSCO_Test_lite
| ROSCO_Test_heavy
| ROSCO_Controller_Comp (rosco_binaries : list string)
| ROSCO_DISCON_Comp (discon_files : list string).

Definition lower_char (c : ascii) : ascii :=
  let n := nat_of_ascii c in
  if (65 <=? n)%nat && (n <=? 90)%nat then ascii_of_nat (n + 32) else c.

Fixpoint lower (s : string) : string :=
  match s with
  | EmptyString => EmptyString
  | String c s' => String (lower_char c) (lower s')
  end.

Fixpoint endswith_sep (s : string) : bool :=
  match s with
  | EmptyString => false
  | String c EmptyString => Ascii.eqb c "/"
  | String _ s' => endswith_sep s'
  end.

Definition startswith_sep (s : string) : bool :=
  match s with
  | String c _ => Ascii.eqb c "/"
  | EmptyString => false
  end.

(** [os.path.join(a, b)] on a POSIX system. *)
Definition path_join (a b : string) : string :=
  if startswith_sep b then b
  else if String.eqb a "" || endswith_sep a then (a ++ b)%string
  else (a ++ "/" ++ b)%string.

Definition dquote : string := String (ascii_of_nat 34) EmptyString.

(** The messages of lines 48 and 50; the second names binary-comp too. *)
Definition too_few_binaries : string :=
  ("You need at least two binaries to compare for testtype = "
   ++ dquote ++ "binary-comp" ++ dquote ++ "!")%string.

Definition too_few_discon_files : string :=
  ("You need at least two discon files to compare for testtype = "
   ++ dquote ++ "binary-comp" ++ dquote ++ "!")%string.

(** Lines 47-50. *)
Definition check_inputs (testtype : string)
    (rosco_binaries discon_files : list string) : error + unit :=
  if String.eqb (lower testtype) "binary-comp"
     && (length rosco_binaries <? 2)%nat
  then inl (ValueError too_few_binaries)
  else if String.eqb (lower testtype) "discon-comp"
          && (length discon_files <? 2)%nat
  then inl (ValueError too_few_discon_files)
  else inr tt.

(** Lines 53-64. *)
Definition setup_turbine (cwd : string) (rt : ROSCO_testing)
    (turbine2test : string) : error + ROSCO_testing :=
  if String.eqb turbine2test "NREL-5MW" then
    inr {| Turbine_Class := "I"; Turbulence_Class := "A";
           FAST_directory := path_join cwd "../Test_Cases/NREL-5MW";
           FAST_InputFile := "NREL-5MW.fst";
           rosco_path := rosco_path rt |}
  else if String.eqb turbine2test "IEA-15MW" then
    inr {| Turbine_Class := "I"; Turbulence_Class := "B";
           FAST_directory :=
             path_join cwd "../Test_Cases/IEA-15-240-RWT-UMaineSemi";
           FAST_InputFile := "IEA-15-240-RWT-UMaineSemi.fst";
           rosco_path := rosco_path rt |}
  else
    inl (ValueError (turbine2test ++ " is not an available turbine to test!")).

Definition set_rosco_path (rt : ROSCO_testing) (p : string) : ROSCO_testing :=
  {| Turbine_Class := Turbine_Class rt; Turbulence_Class := Turbulence_Class rt;
     FAST_directory := FAST_directory rt; FAST_InputFile := FAST_InputFile rt;
     rosco_path := p |}.

(** Lines 67-78; [rosco_binaries[0]] raises on an empty list. *)
Definition run_test (rt : ROSCO_testing) (testtype : string)
    (rosco_binaries discon_files : list string)
  : error + (ROSCO_testing * test_call) :=
  if String.eqb (lower testtype) "lite" then
    match rosco_binaries with
    | [] => inl ListIndexError
    | b :: _ => inr (set_rosco_path rt b, ROSCO_Test_lite)
    end
  else if String.eqb (lower testtype) "heavy" then
    match rosco_binaries with
    | [] => inl ListIndexError
    | b :: _ => inr (set_rosco_path rt b, ROSCO_Test_heavy)
    end
  else if String.eqb (lower testtype) "binary-comp" then
    inr (rt, ROSCO_Controller_Comp rosco_binaries)
  else if String.eqb (lower testtype) "discon-comp" then
    inr (rt, ROSCO_DISCON_Comp discon_files)
  else inl (ValueError (testtype ++ " is an invalid test type!")).

Definition run_testing (cwd : string) (rt : ROSCO_testing)
    (turbine2test testtype : string)
    (rosco_binaries discon_files : list string)
  : error + (ROSCO_testing * test_call) :=
  match check_inputs testtype rosco_binaries discon_files with
  | inl e => inl e
  | inr _ =>
      match setup_turbine cwd rt turbine2test with
      | inl e => inl e
      | inr rt' => run_test rt' testtype rosco_binaries discon_files
      end
  end.

Definition rt0 : ROSCO_testing :=
  {| Turbine_Class := ""; Turbulence_Class := ""; FAST_directory := "";
     FAST_InputFile := ""; rosco_path := "libdiscon.so" |}.

End RunTesting.

(** * Proofs *)

(** ** binary64: multiplying by one changes nothing

    [np.ones_like(t_array) * x] holds [1.0 * x], which is [x] itself for
    every binary64 value: a product with [2^52 * 2^-52] needs no
    rounding. This is read off the specification of the primitive
    multiplication. *)

Lemma shr_exact_52 (m : positive) (e : Z) :
  shr (shr_record_of_loc (Zpos (4503599627370496 * m)) loc_Exact) e 52
  = ({| shr_m := Zpos m; shr_r := false; shr_s := false |}, (e + 52)%Z).
Proof. reflexivity. Qed.

Lemma digits2_pos_xO (p : positive) :
  Zpos (digits2_pos (p~0)) = (Zpos (digits2_pos p) + 1)%Z.
Proof. change (digits2_pos p~0) with (Pos.succ (digits2_pos p)). lia. Qed.

Lemma Zdigits2_shift_52 (m : positive) :
  Zdigits2 (Zpos (4503599627370496 * m)) = (Zpos (digits2_pos m) + 52)%Z.
Proof.
  change (4503599627370496 * m)%positive with (Pos.iter xO m 52).
  cbn [Pos.iter Zdigits2]. rewrite !digits2_pos_xO. lia.
Qed.

Lemma SF64mul_1_l x :
  valid_binary x = true -> SF64mul (Prim2SF 1) x = x.
Proof.
  intros Hv. change (Prim2SF 1) with (S754_finite false 4503599627370496 (-52)).
  destruct x as [sx|sx| |sx m e]; try reflexivity.
  unfold FloatAxioms.valid_binary in Hv. simpl in Hv. unfold bounded in Hv.
  apply andb_prop in Hv as [Hc Hb].
  unfold canonical_mantissa in Hc. apply Z.eqb_eq in Hc.
  unfold SF64mul, SFmul. simpl xorb. unfold binary_round_aux.
  unfold shr_fexp at 1. rewrite Zdigits2_shift_52.
  replace (Z.pos (digits2_pos m) + 52 + (-52 + e))%Z
    with (Z.pos (digits2_pos m) + e)%Z by lia.
  rewrite Hc. replace (e - (-52 + e))%Z with 52%Z by lia.
  rewrite shr_exact_52. cbn [shr_m loc_of_shr_record round_nearest_even].
  unfold shr_fexp. cbn [Zdigits2].
  replace (-52 + e + 52)%Z with e by lia. rewrite Hc, Z.sub_diag.
  cbn [shr shr_record_of_loc shr_m]. now rewrite Hb.
Qed.

Lemma float_mul_1_l (x : float) : (1 * x)%float = x.
Proof.
  apply Prim2SF_inj. rewrite mul_spec. apply SF64mul_1_l, Prim2SF_valid.
Qed.

(** Two floats that [PrimFloat.eqb] tells apart are different. *)
Lemma float_neq (x y : float) :
  PrimFloat.eqb x y = false -> PrimFloat.eqb y y = true -> x <> y.
Proof. intros Hxy Hyy ->. congruence. Qed.

(** ** The monad on [getitem], [setitem] and [call] *)

Section Monad.
Context {world : Type}.
Implicit Types (s : store world) (a : list float) (i : nat).

Lemma bind_getitem {B} a i x (k : float -> M world B) s :
  a !! i = Some x -> bind (getitem a i) k s = k x s.
Proof. intros H. unfold bind, getitem. now rewrite H. Qed.

Lemma bind_getitem_None {B} a i (k : float -> M world B) s :
  a !! i = None -> bind (getitem a i) k s = (Raise IndexError, s).
Proof. intros H. unfold bind, getitem. now rewrite H. Qed.

Lemma bind_setitem {B} a i v (k : list float -> M world B) s :
  i < length a -> bind (setitem a i v) k s = k (<[i:=v]> a) s.
Proof.
  intros H. unfold bind, setitem. destruct (decide (i < length a)); [done|lia].
Qed.

Lemma bind_call {A B} (ev : result A -> event) f (k : A -> M world B) s :
  bind (call ev f) k s =
  let r := f (wld s) in
  let s' := {| wld := snd r; trace := trace s ++ [ev (fst r)] |} in
  match fst r with
  | Ok x => k x s'
  | Raise e => (Raise e, s')
  end.
Proof. unfold bind, call. simpl. now destruct (fst (f (wld s))). Qed.

End Monad.

Ltac look :=
  first [ apply list_lookup_insert_eq; rewrite ?length_insert; lia
        | apply list_lookup_lookup_total_lt; rewrite ?length_insert; lia ].

Ltac step :=
  first [ erewrite bind_getitem by look
        | rewrite bind_setitem by (rewrite ?length_insert; lia) ].

(** ** One turn of the loop *)

Section Loop.
Context {world : Type}.
Variable cc_evaluate : float -> float -> float -> world -> result float * world.
Variable interp_surface : float -> float -> world -> result float * world.
Variable call_controller :
  float -> float -> float -> float -> float -> float ->
  world -> result (float * float) * world.
Variable float_pow : float -> float -> float.

Local Abbreviation body :=
  (loop_body cc_evaluate interp_surface call_controller float_pow).
Local Abbreviation source := (aero_source cc_evaluate interp_surface).
Local Abbreviation simulate :=
  (sim_ws_series cc_evaluate interp_surface call_controller float_pow).

Lemma bind_load_cq {B} tb use a i ws (k : float -> M world B) s n :
  lengths n a -> 0 < i < n ->
  bind (load_cq cc_evaluate interp_surface tb use a i ws) k s
  = bind (call (aero_event tb use a i ws) (source tb use a i ws)) k s.
Proof.
  intros (Hp & Hr & _) Hi. unfold load_cq, aero_event, aero_source.
  destruct use; unfold interp, evaluate, bind at 1; repeat step; reflexivity.
Qed.

(** What [loop_body] computes at an index within the arrays. *)
Lemma loop_body_eq self ws_array dt use i t a s n ws :
  lengths n a -> 0 < i < n -> ws_array !! i = Some ws ->
  body self ws_array dt use i t a s =
  let tb := turbine self in
  let r1 := source tb use a i ws (wld s) in
  let ev1 := aero_event tb use a i ws (fst r1) in
  match fst r1 with
  | Raise e => (Raise e, {| wld := snd r1; trace := trace s ++ [ev1] |})
  | Ok cq =>
      let r := next_rot_speed float_pow self dt i ws cq a in
      let g := (r * Ng tb)%float in
      let p := bld_pitch a !!! (i - 1) in
      let r2 := call_controller t dt p g r ws (snd r1) in
      let s' := {| wld := snd r2;
                   trace := trace s ++ [ev1; EvController t dt p g r ws (fst r2)] |} in
      match fst r2 with
      | Raise e => (Raise e, s')
      | Ok cmd => (Ok (write_step float_pow self dt i ws cq cmd a), s')
      end
  end.
Proof.
  intros Hn Hi Hws. pose proof Hn as (Hp & Hr & Hg & Hq & Ht & Hw).
  unfold loop_body. destruct (Nat.eqb_spec i 0) as [->|_]; [lia|].
  rewrite (bind_getitem _ _ _ _ _ Hws).
  rewrite (bind_load_cq _ _ _ _ _ _ _ n) by (done || lia).
  rewrite bind_call. cbv zeta.
  destruct (fst (source (turbine self) use a i ws (wld s))) as [cq|e]; [|done].
  repeat step. unfold controller. rewrite bind_call. cbv zeta. simpl wld. simpl trace.
  rewrite <- app_assoc. simpl app.
  unfold write_step, next_rot_speed, aero_formula. cbv zeta.
  set (r2 := call_controller _ _ _ _ _ _ _).
  destruct (fst r2) as [cmd|e]; [|done].
  repeat step. reflexivity.
Qed.

(** A loop that completes carries an invariant from its first index to
    its last. *)
Lemma for_enumerate_Ok {St} (P : nat -> St -> store world -> Prop)
    (f : nat -> float -> St -> M world St) l :
  forall k a s a' s',
  for_enumerate f k l a s = (Ok a', s') ->
  P k a s ->
  (forall j x b u b' u', l !! (j - k) = Some x -> k <= j ->
     P j b u -> f j x b u = (Ok b', u') -> P (S j) b' u') ->
  P (k + length l) a' s'.
Proof.
  induction l as [|x l IH]; intros k a s a' s' Hrun HP Hstep; simpl in Hrun.
  - injection Hrun as -> ->. simpl. now rewrite Nat.add_0_r.
  - unfold bind in Hrun. destruct (f k x a s) as [[b|e] u] eqn:Hf; [|done].
    simpl length. rewrite <- Nat.add_succ_comm.
    apply (IH (S k) b u); [done| |].
    + apply (Hstep k x a s); [now rewrite Nat.sub_diag|lia|done|done].
    + intros j y c v c' v' Hy Hj. apply Hstep; [|lia].
      replace (j - k) with (S (j - S k)) by lia. exact Hy.
Qed.

End Loop.

(** ** Arrays that agree at an index *)

Lemma same_at_total j a b :
  same_at j a b ->
  bld_pitch a !!! j = bld_pitch b !!! j /\
  rot_speed a !!! j = rot_speed b !!! j /\
  gen_speed a !!! j = gen_speed b !!! j /\
  aero_torque a !!! j = aero_torque b !!! j /\
  gen_torque a !!! j = gen_torque b !!! j /\
  gen_power a !!! j = gen_power b !!! j.
Proof.
  intros (H1 & H2 & H3 & H4 & H5 & H6).
  rewrite !list_lookup_total_alt, H1, H2, H3, H4, H5, H6. done.
Qed.

Lemma same_at_trans j a b c : same_at j a b -> same_at j b c -> same_at j a c.
Proof.
  intros (H1 & H2 & H3 & H4 & H5 & H6) (K1 & K2 & K3 & K4 & K5 & K6).
  unfold same_at. rewrite H1, H2, H3, H4, H5, H6. done.
Qed.

Section Step.
Variable float_pow : float -> float -> float.
Variables (self : Sim) (t_array ws_array : list float) (dt : float).
Variable use : bool.

Local Abbreviation write := (write_step float_pow self dt).
Local Abbreviation holds := (step_holds float_pow self ws_array dt).
Local Abbreviation events :=
  (step_events (turbine self) use t_array ws_array dt).

Lemma write_step_lengths n i ws cq cmd a :
  lengths n a -> lengths n (write i ws cq cmd a).
Proof.
  intros (H1 & H2 & H3 & H4 & H5 & H6).
  unfold lengths, write_step; simpl. rewrite !length_insert. done.
Qed.

Lemma write_step_same_at j i ws cq cmd a :
  j <> i -> same_at j (write i ws cq cmd a) a.
Proof.
  intros Hj. unfold same_at, write_step; simpl.
  rewrite !list_lookup_insert_ne by done. done.
Qed.

Lemma step_holds_ext a b cqs cqs' i :
  same_at i a b -> same_at (i - 1) a b -> cqs !!! i = cqs' !!! i ->
  holds a cqs i -> holds b cqs' i.
Proof.
  intros Hi Hp Hc. apply same_at_total in Hi as (_ & R & G & Q & T & W).
  apply same_at_total in Hp as (_ & R' & _ & _ & T' & _).
  unfold step_holds. cbv zeta.
  rewrite R, G, Q, T, W, R', T', Hc. done.
Qed.

Lemma step_events_ext a b cqs cqs' i :
  same_at i a b -> same_at (i - 1) a b -> cqs !!! i = cqs' !!! i ->
  events a cqs i = events b cqs' i.
Proof.
  intros Hi Hp Hc. apply same_at_total in Hi as (P & R & G & _ & T & _).
  apply same_at_total in Hp as (P' & R' & _).
  unfold step_events, aero_event, controller_event.
  rewrite P, R, G, T, P', R', Hc. done.
Qed.

Lemma write_step_holds n a cqs i ws cq cmd :
  lengths n a -> 0 < i < n -> ws_array !! i = Some ws -> length cqs = i ->
  holds (write i ws cq cmd a) (cqs ++ [cq]) i.
Proof.
  intros (H1 & H2 & H3 & H4 & H5 & H6) Hi Hws Hc.
  unfold step_holds, write_step, next_rot_speed. cbv zeta. simpl.
  rewrite !list_lookup_total_insert_eq by lia.
  rewrite !list_lookup_total_insert_ne by lia.
  rewrite (list_lookup_total_correct _ _ _ Hws).
  rewrite lookup_total_app_r by lia. rewrite Hc, Nat.sub_diag. done.
Qed.

Lemma write_step_events n a cqs i t ws cq cmd :
  lengths n a -> 0 < i < n ->
  t_array !! i = Some t -> ws_array !! i = Some ws -> length cqs = i ->
  let r := next_rot_speed float_pow self dt i ws cq a in
  [ aero_event (turbine self) use a i ws (Ok cq);
    EvController t dt (bld_pitch a !!! (i - 1)) (r * Ng (turbine self))%float
                 r ws (Ok cmd) ]
  = events (write i ws cq cmd a) (cqs ++ [cq]) i.
Proof.
  intros (H1 & H2 & H3 & H4 & H5 & H6) Hi Ht Hws Hc.
  unfold step_events, aero_event, controller_event, write_step. cbv zeta. simpl.
  rewrite !list_lookup_total_insert_eq by lia.
  rewrite !list_lookup_total_insert_ne by lia.
  rewrite (list_lookup_total_correct _ _ _ Hws).
  rewrite (list_lookup_total_correct _ _ _ Ht).
  rewrite lookup_total_app_r by lia. rewrite Hc, Nat.sub_diag.
  destruct cmd. done.
Qed.

End Step.

(** ** The whole loop *)

Lemma declare_arrays_lengths tb t_array rpm pitch :
  lengths (length t_array) (declare_arrays tb t_array rpm pitch).
Proof.
  unfold lengths, declare_arrays, scale, ones_like; simpl.
  rewrite !length_fmap, !length_replicate. done.
Qed.

(** Index 0 of the declared arrays. *)
Lemma declare_arrays_0 tb t_array rpm pitch :
  0 < length t_array ->
  let a0 := declare_arrays tb t_array rpm pitch in
  bld_pitch a0 !! 0 = Some pitch /\
  rot_speed a0 !! 0 = Some (rpm * rpm2RadSec)%float /\
  gen_speed a0 !! 0 = Some (rpm * Ng tb)%float /\
  aero_torque a0 !! 0 = Some 1000%float /\
  gen_torque a0 !! 0 = Some 1%float /\
  gen_power a0 !! 0 = Some 0%float.
Proof.
  intros Hlen. unfold declare_arrays, scale, ones_like; simpl.
  rewrite !list_lookup_fmap, lookup_replicate_2 by done. simpl.
  rewrite !float_mul_1_l. done.
Qed.

Section Run.
Context {world : Type}.
Variable cc_evaluate : float -> float -> float -> world -> result float * world.
Variable interp_surface : float -> float -> world -> result float * world.
Variable call_controller :
  float -> float -> float -> float -> float -> float ->
  world -> result (float * float) * world.
Variable float_pow : float -> float -> float.

Local Abbreviation body :=
  (loop_body cc_evaluate interp_surface call_controller float_pow).
Local Abbreviation simulate :=
  (sim_ws_series cc_evaluate interp_surface call_controller float_pow).

Section Invariant.
Variables (self : Sim) (t_array ws_array : list float) (dt : float).
Variable use : bool.
Variable a0 : Series.
Variable s0 : store world.

Local Abbreviation loop_inv :=
  (loop_invariant float_pow self t_array ws_array dt use a0 s0).

Lemma loop_inv_step j t a s a' s' :
  t_array !! j = Some t ->
  loop_inv j a s ->
  body self ws_array dt use j t a s = (Ok a', s') ->
  loop_inv (S j) a' s'.
Proof.
  intros Ht (Hn & Hframe & cqs & Hc & Hsteps & Htr) Hrun.
  destruct (Nat.eq_dec j 0) as [->|Hj].
  - unfold loop_body in Hrun. simpl in Hrun. injection Hrun as <- <-.
    split; [done|]. split; [intros; apply Hframe; lia|].
    exists (cqs ++ [0%float]). rewrite length_app, Hc. simpl.
    split; [done|]. split; [intros; lia|]. now rewrite Htr.
  - pose proof (lookup_lt_Some _ _ _ Ht) as Hlt.
    destruct (ws_array !! j) as [ws|] eqn:Hws.
    2:{ unfold loop_body in Hrun. destruct (Nat.eqb_spec j 0); [done|].
        now rewrite bind_getitem_None in Hrun. }
    rewrite (loop_body_eq _ _ _ _ _ _ _ _ _ _ _ _ (length t_array) ws)
      in Hrun by (done || lia).
    cbv zeta in Hrun.
    destruct (fst (aero_source _ _ _ _ _ _ _ _)) as [cq|e]; [|done].
    destruct (fst (call_controller _ _ _ _ _ _ _)) as [cmd|e]; [|done].
    injection Hrun as <- <-. simpl trace.
    split; [now apply write_step_lengths|].
    split.
    { intros i Hi. eapply same_at_trans; [apply write_step_same_at; lia|].
      apply Hframe; lia. }
    exists (cqs ++ [cq]). rewrite length_app, Hc. simpl.
    split; [lia|]. split.
    + intros i Hi. destruct (Nat.eq_dec i j) as [->|Hne].
      * split; [now apply lookup_lt_Some in Hws|].
        eapply write_step_holds; eauto; lia.
      * destruct (Hsteps i) as [Hiw Hh]; [lia|]. split; [done|].
        eapply step_holds_ext; [| | |exact Hh].
        -- unfold same_at, write_step; simpl.
           rewrite !list_lookup_insert_ne by lia. done.
        -- unfold same_at, write_step; simpl.
           rewrite !list_lookup_insert_ne by lia. done.
        -- rewrite lookup_total_app_l by lia. done.
    + rewrite Htr, <- app_assoc. f_equal.
      replace (j - 0) with (S (j - 1)) by lia.
      rewrite seq_S, flat_map_app. simpl.
      replace (S (j - 1)) with j by lia. f_equal.
      * rewrite !flat_map_concat_map. f_equal.
        apply map_ext_in. intros i Hi%in_seq.
        apply step_events_ext.
        -- unfold same_at, write_step; simpl.
           rewrite !list_lookup_insert_ne by lia. done.
        -- unfold same_at, write_step; simpl.
           rewrite !list_lookup_insert_ne by lia. done.
        -- rewrite lookup_total_app_l by lia. done.
      * eapply write_step_events; eauto; lia.
Qed.

Lemma loop_Ok a s' :
  lengths (length t_array) a0 ->
  for_enumerate (body self ws_array dt use) 0 t_array a0 s0 = (Ok a, s') ->
  loop_inv (length t_array) a s'.
Proof.
  intros Hn Hrun.
  apply (for_enumerate_Ok loop_inv _ _ _ _ _ _ _ Hrun).
  - split; [done|]. split; [done|]. exists []. split; [done|].
    split; [intros; lia|]. simpl. now rewrite app_nil_r.
  - intros j x b u b' u' Hx _. rewrite Nat.sub_0_r in Hx.
    now apply loop_inv_step.
Qed.

End Invariant.

(** The setup: the evaluator is called once when its arguments can be
    read, and the flag is set exactly when that call raises. *)
Lemma select_variant_eq ws_array a s ws1 :
  ws_array !! 1 = Some ws1 -> 0 < length (rot_speed a) ->
  0 < length (bld_pitch a) ->
  select_variant cc_evaluate ws_array a s =
  let rpm := (rot_speed a !!! 0%nat / rpm2RadSec)%float in
  let r := cc_evaluate ws1 rpm (bld_pitch a !!! 0) (wld s) in
  (Ok (raised (fst r)),
   {| wld := snd r;
      trace := trace s ++ [EvEvaluate ws1 rpm (bld_pitch a !!! 0) (fst r)] |}).
Proof.
  intros Hws Hr Hp. unfold select_variant, try_except.
  rewrite (bind_getitem _ _ _ _ _ Hws). repeat step.
  unfold evaluate. rewrite bind_call. cbv zeta.
  destruct (fst (cc_evaluate _ _ _ _)); reflexivity.
Qed.

Lemma select_variant_short ws_array a s :
  ws_array !! 1 = None -> select_variant cc_evaluate ws_array a s = (Ok true, s).
Proof.
  intros Hws. unfold select_variant, try_except.
  now rewrite bind_getitem_None.
Qed.

(** The time step, when the time array has two samples. *)
Lemma bind_time_step {B} t_array t0 t1 (k : float -> M world B) s :
  t_array !! 0 = Some t0 -> t_array !! 1 = Some t1 ->
  bind (time_step t_array) k s = k (t1 - t0)%float s.
Proof.
  intros H0 H1. unfold time_step, bind at 1.
  rewrite (bind_getitem _ _ _ _ _ H1), (bind_getitem _ _ _ _ _ H0). done.
Qed.

Lemma time_step_Ok {B} t_array (k : float -> M world B) s b s' :
  bind (time_step t_array) k s = (Ok b, s') ->
  exists t0 t1, t_array !! 0 = Some t0 /\ t_array !! 1 = Some t1.
Proof.
  intros H. destruct (t_array !! 1) as [t1|] eqn:H1.
  - destruct (t_array !! 0) as [t0|] eqn:H0; [eauto|].
    apply lookup_ge_None in H0. apply lookup_lt_Some in H1. lia.
  - unfold time_step, bind at 1 in H. now rewrite bind_getitem_None in H.
Qed.

(** The setup on the declared arrays. *)
Lemma select_variant_declared tb t_array ws_array rpm pitch s ws1 :
  0 < length t_array -> ws_array !! 1 = Some ws1 ->
  select_variant cc_evaluate ws_array (declare_arrays tb t_array rpm pitch) s =
  let rpm0 := (rpm * rpm2RadSec / rpm2RadSec)%float in
  let r := cc_evaluate ws1 rpm0 pitch (wld s) in
  (Ok (raised (fst r)),
   {| wld := snd r;
      trace := trace s ++ [EvEvaluate ws1 rpm0 pitch (fst r)] |}).
Proof.
  intros Hlen Hws.
  pose proof (declare_arrays_lengths tb t_array rpm pitch) as (Hp & Hr & _).
  destruct (declare_arrays_0 tb t_array rpm pitch Hlen) as (Ep & Er & _).
  rewrite (select_variant_eq _ _ _ ws1) by (done || lia). cbv zeta.
  now rewrite (list_lookup_total_correct _ _ _ Ep),
              (list_lookup_total_correct _ _ _ Er).
Qed.

(** What a completed run leaves: arrays and log. *)
Lemma run_Ok self t_array ws_array rpm pitch s a s' :
  simulate self t_array ws_array rpm pitch s = (Ok a, s') ->
  exists t0 t1 ws1 cqs,
    t_array !! 0 = Some t0 /\ t_array !! 1 = Some t1 /\
    ws_array !! 1 = Some ws1 /\
    let a0 := declare_arrays (turbine self) t_array rpm pitch in
    let dt := (t1 - t0)%float in
    let rpm0 := (rpm * rpm2RadSec / rpm2RadSec)%float in
    let out := fst (cc_evaluate ws1 rpm0 pitch (wld s)) in
    lengths (length t_array) a /\
    same_at 0 a a0 /\
    (forall i, 1 <= i < length t_array ->
       i < length ws_array /\ step_holds float_pow self ws_array dt a cqs i) /\
    trace s' = trace s ++ EvEvaluate ws1 rpm0 pitch out ::
      flat_map (step_events (turbine self) (raised out) t_array ws_array dt a cqs)
               (seq 1 (length t_array - 1)).
Proof.
  intros Hrun. unfold sim_ws_series in Hrun.
  destruct (time_step_Ok _ _ _ _ _ Hrun) as (t0 & t1 & H0 & H1).
  rewrite (bind_time_step _ _ _ _ _ H0 H1) in Hrun.
  pose proof (declare_arrays_lengths (turbine self) t_array rpm pitch) as Hn.
  pose proof (lookup_lt_Some _ _ _ H1) as Hlen.
  destruct (ws_array !! 1) as [ws1|] eqn:Hws.
  - unfold bind at 1 in Hrun.
    rewrite (select_variant_declared _ _ _ _ _ _ ws1) in Hrun by (done || lia).
    cbv zeta in Hrun.
    apply loop_Ok in Hrun as (Hl & Hframe & cqs & Hc & Hsteps & Htr); [|done].
    exists t0, t1, ws1, cqs. cbv zeta.
    split_and!; [done|done|done|done|apply Hframe; lia|done|].
    rewrite Htr. simpl trace. now rewrite <- app_assoc.
  - exfalso. unfold bind at 1 in Hrun.
    rewrite select_variant_short in Hrun by done.
    apply loop_Ok in Hrun as (_ & _ & cqs & _ & Hsteps & _); [|done].
    destruct (Hsteps 1) as [Hlt _]; [lia|].
    apply lookup_ge_None in Hws. lia.
Qed.

End Run.

(** ** What a computation may log, whatever its outcome *)

Section Logs.
Context {world : Type}.

Lemma logs_ret {A} P (x : A) : logs P (@ret world A x).
Proof.
  intros s r s' [= <- <-]. exists []. now rewrite app_nil_r.
Qed.

Lemma logs_raise {A} P e : logs P (@raise world A e).
Proof.
  intros s r s' [= <- <-]. exists []. now rewrite app_nil_r.
Qed.

Lemma logs_bind {A B} P (m : M world A) (k : A -> M world B) :
  logs P m -> (forall x, logs P (k x)) -> logs P (bind m k).
Proof.
  intros Hm Hk s r s' Hrun. unfold bind in Hrun.
  destruct (m s) as [[x|e] s1] eqn:Hms.
  - destruct (Hm _ _ _ Hms) as (evs1 & E1 & F1).
    destruct (Hk x _ _ _ Hrun) as (evs2 & E2 & F2).
    exists (evs1 ++ evs2). rewrite E2, E1, <- app_assoc.
    split; [done|]. now apply Forall_app.
  - injection Hrun as <- <-. exact (Hm _ _ _ Hms).
Qed.

Lemma logs_try_except {A} P (m h : M world A) :
  logs P m -> logs P h -> logs P (try_except m h).
Proof.
  intros Hm Hh s r s' Hrun. unfold try_except in Hrun.
  destruct (m s) as [[x|e] s1] eqn:Hms.
  - injection Hrun as <- <-. exact (Hm _ _ _ Hms).
  - destruct (Hm _ _ _ Hms) as (evs1 & E1 & F1).
    destruct (Hh _ _ _ Hrun) as (evs2 & E2 & F2).
    exists (evs1 ++ evs2). rewrite E2, E1, <- app_assoc.
    split; [done|]. now apply Forall_app.
Qed.

Lemma logs_getitem P a i : logs P (@getitem world a i).
Proof.
  unfold getitem. destruct (a !! i); [apply logs_ret|apply logs_raise].
Qed.

Lemma logs_setitem P a i v : logs P (@setitem world a i v).
Proof.
  unfold setitem. destruct (decide _); [apply logs_ret|apply logs_raise].
Qed.

Lemma logs_call {A} (P : event -> Prop) (ev : result A -> event)
    (f : world -> result A * world) :
  (forall r, P (ev r)) -> logs P (call ev f).
Proof.
  intros HP s r s' [= <- <-]. exists [ev (fst (f (wld s)))].
  split; [done|]. now constructor.
Qed.

Lemma logs_for_enumerate {St} P (f : nat -> float -> St -> M world St) l :
  (forall i x b, logs P (f i x b)) ->
  forall k b, logs P (for_enumerate f k l b).
Proof.
  intros Hf. induction l as [|x l IH]; intros k b; simpl.
  - apply logs_ret.
  - apply logs_bind; [apply Hf|]. intros b'. apply IH.
Qed.

(** A loop whose turns all return, returns. *)
Lemma for_enumerate_total {St} (P : nat -> St -> Prop)
    (f : nat -> float -> St -> M world St) l :
  forall k b s,
  P k b ->
  (forall j x c u, l !! (j - k) = Some x -> k <= j -> P j c ->
     exists c' u', f j x c u = (Ok c', u') /\ P (S j) c') ->
  exists b' s', for_enumerate f k l b s = (Ok b', s').
Proof.
  induction l as [|x l IH]; intros k b s HP Hstep; simpl.
  - now exists b, s.
  - destruct (Hstep k x b s) as (c & u & Hf & HP');
      [now rewrite Nat.sub_diag|lia|done|].
    unfold bind. rewrite Hf. apply (IH (S k)); [done|].
    intros j y d v Hy Hj. apply Hstep; [|lia].
    replace (j - k) with (S (j - S k)) by lia. exact Hy.
Qed.

End Logs.

Ltac logs_steps :=
  repeat first
    [ apply logs_ret
    | apply logs_getitem
    | apply logs_setitem
    | apply logs_call; intros; first [exact I | reflexivity]
    | apply logs_bind; [|intros] ].

Section Fallback.
Context {world : Type}.
Variable cc_evaluate : float -> float -> float -> world -> result float * world.
Variable interp_surface : float -> float -> world -> result float * world.
Variable call_controller :
  float -> float -> float -> float -> float -> float ->
  world -> result (float * float) * world.
Variable float_pow : float -> float -> float.

Local Abbreviation body :=
  (loop_body cc_evaluate interp_surface call_controller float_pow).

(** On the interpolated tables no turn of the loop calls the evaluator. *)
Lemma loop_body_interpolated self ws_array dt i t a :
  logs (fun e => is_evaluate e = false) (body self ws_array dt true i t a).
Proof.
  unfold loop_body. destruct (Nat.eqb i 0); [apply logs_ret|].
  unfold load_cq, interp, controller. logs_steps.
Qed.

Lemma loop_body_logs self ws_array dt use i t a :
  logs (fun _ => True) (body self ws_array dt use i t a).
Proof.
  unfold loop_body. destruct (Nat.eqb i 0); [apply logs_ret|].
  unfold load_cq, interp, evaluate, controller. destruct use; logs_steps.
Qed.

(** With arrays long enough and an aerodynamic source and a controller
    that return, every turn returns and keeps the lengths. *)
Lemma loop_body_total self ws_array dt i t a s n :
  (forall p tsr w, raised (fst (interp_surface p tsr w)) = false) ->
  (forall t dt p g r ws w,
     raised (fst (call_controller t dt p g r ws w)) = false) ->
  lengths n a -> i < n -> n <= length ws_array ->
  exists a' s', body self ws_array dt true i t a s = (Ok a', s')
                /\ lengths n a'.
Proof.
  intros Hi Hc Hn Hlt Hws.
  destruct (Nat.eq_dec i 0) as [->|Hi0].
  - exists a, s. now unfold loop_body.
  - destruct (lookup_lt_is_Some_2 ws_array i) as [ws Hw]; [lia|].
    rewrite (loop_body_eq _ _ _ _ _ _ _ _ _ _ _ _ n ws) by (done || lia).
    cbv zeta. unfold aero_source.
    match goal with |- context [interp_surface ?p ?x ?w] =>
      specialize (Hi p x w); destruct (fst (interp_surface p x w)) as [cq|]; [|done]
    end.
    match goal with |- context [call_controller ?a1 ?a2 ?a3 ?a4 ?a5 ?a6 ?w] =>
      specialize (Hc a1 a2 a3 a4 a5 a6 w);
      destruct (fst (call_controller a1 a2 a3 a4 a5 a6 w)) as [cmd|]; [|done]
    end.
    eexists _, _. split; [reflexivity|]. now apply write_step_lengths.
Qed.

End Fallback.

(** ** Where the calls of a turn sit in the log *)

Lemma lookup_pairs {A} (f : nat -> list A) m j :
  (forall i, length (f i) = 2) -> 1 <= j <= m ->
  flat_map f (seq 1 m) !! (2 * (j - 1)) = f j !! 0 /\
  flat_map f (seq 1 m) !! (2 * (j - 1) + 1) = f j !! 1.
Proof.
  intros Hf. revert j. induction m as [|m IH]; intros j Hj; [lia|].
  rewrite seq_S, flat_map_app. simpl flat_map. rewrite app_nil_r.
  assert (Hlen : length (flat_map f (seq 1 m)) = 2 * m).
  { clear IH Hj. induction m as [|m IH]; [done|].
    rewrite seq_S, flat_map_app, length_app, IH. simpl. rewrite app_nil_r, Hf. lia. }
  destruct (Nat.eq_dec j (S m)) as [->|Hne].
  - rewrite !lookup_app_r by lia. rewrite Hlen.
    replace (2 * (S m - 1) - 2 * m) with 0 by lia.
    replace (2 * (S m - 1) + 1 - 2 * m) with 1 by lia. done.
  - rewrite !lookup_app_l by lia. apply IH. lia.
Qed.

Lemma lookup_tail {A} (x : A) (l : list A) (n : nat) :
  (x :: l) !! S n = l !! n.
Proof. reflexivity. Qed.

(** * Properties of a run *)

Section Properties.
Context {world : Type}.
Variable cc_evaluate : float -> float -> float -> world -> result float * world.
Variable interp_surface : float -> float -> world -> result float * world.
Variable call_controller :
  float -> float -> float -> float -> float -> float ->
  world -> result (float * float) * world.
Variable float_pow : float -> float -> float.

(** In a completed run the call of the setup is entry 0 of what the run
    logged, the aerodynamic query of turn [j] entry [2 j - 1] and the call
    to the controller of turn [j] entry [2 j]. *)
Lemma run_Ok_positions self t_array ws_array rpm pitch s a s' :
  sim_ws_series cc_evaluate interp_surface call_controller float_pow
    self t_array ws_array rpm pitch s = (Ok a, s') ->
  exists (t0 t1 ws1 : float) (cqs : list float),
    t_array !! 0 = Some t0 /\ t_array !! 1 = Some t1 /\
    ws_array !! 1 = Some ws1 /\
    let rpm0 := (rpm * rpm2RadSec / rpm2RadSec)%float in
    let out := fst (cc_evaluate ws1 rpm0 pitch (wld s)) in
    trace s' !! length (trace s) = Some (EvEvaluate ws1 rpm0 pitch out) /\
    forall j, 1 <= j < length t_array ->
      trace s' !! (length (trace s) + (2 * j - 1))
        = Some (aero_event (turbine self) (raised out) a j (ws_array !!! j)
                           (Ok (cqs !!! j))) /\
      trace s' !! (length (trace s) + 2 * j)
        = Some (controller_event (t_array !!! j) (t1 - t0)%float
                                 (ws_array !!! j) a j).
Proof.
  intros Hrun. apply run_Ok in Hrun
    as (t0 & t1 & ws1 & cqs & H0 & H1 & Hws & Hl & Hf & Hsteps & Htr).
  exists t0, t1, ws1, cqs. split; [done|]. split; [done|]. split; [done|].
  cbv zeta. rewrite Htr. split.
  { rewrite lookup_app_r by lia. now rewrite Nat.sub_diag. }
  intros j Hj. rewrite !lookup_app_r by lia.
  replace (length (trace s) + (2 * j - 1) - length (trace s))
    with (S (2 * (j - 1))) by lia.
  replace (length (trace s) + 2 * j - length (trace s))
    with (S (2 * (j - 1) + 1)) by lia.
  rewrite !lookup_tail.
  match goal with |- context [flat_map ?f _] =>
    destruct (lookup_pairs f (length t_array - 1) j) as [E1 E2];
      [done|lia|]
  end.
  rewrite E1, E2. done.
Qed.

(** C7: in every completed run each of the six recorded series (blade
    pitch, rotor speed, generator speed, aerodynamic torque, generator
    torque, generator power) is exactly as long as the time array. *)
Theorem C7_series_lengths self t_array ws_array rpm pitch s a s' :
  sim_ws_series cc_evaluate interp_surface call_controller float_pow
    self t_array ws_array rpm pitch s = (Ok a, s') ->
  length (bld_pitch a) = length t_array /\
  length (rot_speed a) = length t_array /\
  length (gen_speed a) = length t_array /\
  length (aero_torque a) = length t_array /\
  length (gen_torque a) = length t_array /\
  length (gen_power a) = length t_array.
Proof.
  intros Hrun. apply run_Ok in Hrun
    as (t0 & t1 & ws1 & cqs & _ & _ & _ & Hl & _). exact Hl.
Qed.

(** C6, as the code has it: the turn of the loop at index 0 changes
    neither the arrays nor the log, and in every completed run index 0 of
    each of the six series still holds what its declaration put there. For
    the pitch that is the initial pitch as supplied, for the rotor speed
    the initial rotor speed converted from rpm to rad/s, and for the
    aerodynamic torque, the generator torque and the power the constants
    1000, 1 and 0. *)
Theorem C6_index0_untouched self t_array ws_array rpm pitch s a s' :
  sim_ws_series cc_evaluate interp_surface call_controller float_pow
    self t_array ws_array rpm pitch s = (Ok a, s') ->
  (forall dt use t b u,
     loop_body cc_evaluate interp_surface call_controller float_pow
       self ws_array dt use 0 t b u = (Ok b, u)) /\
  same_at 0 a (declare_arrays (turbine self) t_array rpm pitch) /\
  bld_pitch a !! 0 = Some pitch /\
  rot_speed a !! 0 = Some (rpm * rpm2RadSec)%float /\
  aero_torque a !! 0 = Some 1000%float /\
  gen_torque a !! 0 = Some 1%float /\
  gen_power a !! 0 = Some 0%float.
Proof.
  intros Hrun. apply run_Ok in Hrun
    as (t0 & t1 & ws1 & cqs & H0 & _ & _ & _ & Hf & _).
  split; [done|]. split; [done|].
  destruct Hf as (-> & -> & _ & -> & -> & ->).
  destruct (declare_arrays_0 (turbine self) t_array rpm pitch)
    as (Ep & Er & _ & Eq & Et & Ew); [now apply lookup_lt_Some in H0|].
  done.
Qed.

(** C3, as the code has it: in every completed run and at every index
    i >= 1 the rotor speed is the forward Euler update
    rot_speed[i] = rot_speed[i-1]
                   + (dt / J) * (aero_torque[i] * gb_eff - Ng * gen_torque[i-1])
    with the one time step dt = t_array[1] - t_array[0]. For i >= 2
    gen_torque[i-1] is the torque that the controller returned in the
    turn before (its call is entry 2 (i-1) of the log of the run). For
    i = 1 it is the 1.0 of the declaration, which no controller call has
    returned: the first two entries of the log, the evaluator call of the
    setup and the query of turn 1, come before the first call to the
    controller. *)
Theorem C3_rotor_speed_forward_euler self t_array ws_array rpm pitch s a s'
    t0 t1 :
  sim_ws_series cc_evaluate interp_surface call_controller float_pow
    self t_array ws_array rpm pitch s = (Ok a, s') ->
  t_array !! 0 = Some t0 -> t_array !! 1 = Some t1 ->
  let tb := turbine self in
  let dt := (t1 - t0)%float in
  (forall i, 1 <= i < length t_array ->
     i < length (rot_speed a) /\ i < length (aero_torque a) /\
     i < length (gen_torque a) /\
     rot_speed a !!! i
     = (rot_speed a !!! (i - 1)%nat
        + (dt / J tb) * (aero_torque a !!! i * gb_eff self
                         - Ng tb * gen_torque a !!! (i - 1)%nat))%float) /\
  (forall i, 2 <= i < length t_array ->
     trace s' !! (length (trace s) + 2 * (i - 1))
     = Some (EvController (t_array !!! (i - 1)) dt
               (bld_pitch a !!! (i - 1 - 1))
               (gen_speed a !!! (i - 1)) (rot_speed a !!! (i - 1))
               (ws_array !!! (i - 1))
               (Ok (gen_torque a !!! (i - 1), bld_pitch a !!! (i - 1))))) /\
  gen_torque a !!! 0 = 1%float /\
  calls is_controller (take 2 (drop (length (trace s)) (trace s'))) = 0.
Proof.
  intros Hrun H0 H1. cbv zeta.
  destruct (run_Ok_positions _ _ _ _ _ _ _ _ Hrun)
    as (u0 & u1 & ws' & cqs' & K0 & K1 & Kws & Ksetup & Hpos).
  apply run_Ok in Hrun
    as (v0 & v1 & ws1 & cqs & L0 & L1 & Hws & Hl & Hf & Hsteps & Htr).
  assert (u0 = t0) as -> by congruence. assert (u1 = t1) as -> by congruence.
  assert (v0 = t0) as -> by congruence. assert (v1 = t1) as -> by congruence.
  pose proof (lookup_lt_Some _ _ _ H1) as Hlen.
  destruct Hl as (Hp & Hr & Hg & Hq & Ht & Hw).
  split_and!.
  - intros i Hi. destruct (Hsteps i Hi) as (_ & _ & Hrot & _).
    split_and!; [lia|lia|lia|exact Hrot].
  - intros i Hi. destruct (Hpos (i - 1)) as [_ Hc]; [lia|]. exact Hc.
  - destruct (declare_arrays_0 (turbine self) t_array rpm pitch)
      as (_ & _ & _ & _ & Et & _); [lia|].
    pose proof Hf as (_ & _ & _ & _ & Ft & _). rewrite Et in Ft.
    now rewrite (list_lookup_total_correct _ _ _ Ft).
  - cbv zeta in Htr. rewrite Htr, drop_app_length.
    replace (length t_array - 1) with (S (length t_array - 2)) by lia.
    simpl. unfold aero_event. now destruct (raised _).
Qed.

(** C8, as the code has it: in every completed run and at every index
    i >= 1 the generator power is
    gen_power[i] = gen_speed[i] * pi / 30 * gen_torque[i] * gen_eff
    evaluated from left to right, that is with gen_speed[i] * pi rounded
    first and the product then divided by 30. *)
Theorem C8_gen_power_left_to_right self t_array ws_array rpm pitch s a s' i :
  sim_ws_series cc_evaluate interp_surface call_controller float_pow
    self t_array ws_array rpm pitch s = (Ok a, s') ->
  1 <= i < length t_array ->
  i < length (gen_power a) /\ i < length (gen_speed a) /\
  i < length (gen_torque a) /\
  gen_power a !!! i
  = (gen_speed a !!! i * np_pi / 30.0 * gen_torque a !!! i * gen_eff self)%float.
Proof.
  intros Hrun Hi. apply run_Ok in Hrun
    as (v0 & v1 & ws1 & cqs & L0 & L1 & Hws & Hl & Hf & Hsteps & Htr).
  destruct Hl as (Hp & Hr & Hg & Hq & Ht & Hw).
  destruct (Hsteps i Hi) as (_ & _ & _ & _ & Hpow).
  split_and!; [lia|lia|lia|exact Hpow].
Qed.

(** X8: from index 1 on the generator speed is the rotor speed of the same
    index times the gearbox ratio. *)
Lemma gen_speed_tracks_rotor_speed self t_array ws_array rpm pitch s a s' i :
  sim_ws_series cc_evaluate interp_surface call_controller float_pow
    self t_array ws_array rpm pitch s = (Ok a, s') ->
  1 <= i < length t_array ->
  i < length (gen_speed a) /\ i < length (rot_speed a) /\
  gen_speed a !!! i = (rot_speed a !!! i * Ng (turbine self))%float.
Proof.
  intros Hrun Hi. apply run_Ok in Hrun
    as (v0 & v1 & ws1 & cqs & L0 & L1 & Hws & Hl & Hf & Hsteps & Htr).
  destruct Hl as (Hp & Hr & Hg & Hq & Ht & Hw).
  destruct (Hsteps i Hi) as (_ & _ & _ & Hgen & _).
  split_and!; [lia|lia|exact Hgen].
Qed.


(** C4: a run whose arrays have two entries calls the evaluator first of
    all, once in the setup. If that call raises, nothing logged afterwards
    is a call to the evaluator, however the run ends; and if the run
    completes, every turn i >= 1 has queried the interpolated surface. *)
Theorem C4_fallback_fixed self t_array ws_array rpm pitch s r s' t0 t1 ws1 :
  t_array !! 0 = Some t0 -> t_array !! 1 = Some t1 ->
  ws_array !! 1 = Some ws1 ->
  sim_ws_series cc_evaluate interp_surface call_controller float_pow
    self t_array ws_array rpm pitch s = (r, s') ->
  let tb := turbine self in
  let rpm0 := (rpm * rpm2RadSec / rpm2RadSec)%float in
  let out := fst (cc_evaluate ws1 rpm0 pitch (wld s)) in
  exists evs : list event,
    trace s' = trace s ++ EvEvaluate ws1 rpm0 pitch out :: evs /\
    (raised out = true ->
     Forall (fun ev => is_evaluate ev = false) evs /\
     forall a, r = Ok a ->
       exists cqs : list float,
         evs = flat_map (fun i : nat =>
           [ EvInterp (bld_pitch a !!! (i - 1))
               (rot_speed a !!! (i - 1)%nat * RotorRad tb / ws_array !!! i)%float
               (Ok (cqs !!! i));
             EvController (t_array !!! i) (t1 - t0)%float
               (bld_pitch a !!! (i - 1)) (gen_speed a !!! i)
               (rot_speed a !!! i) (ws_array !!! i)
               (Ok (gen_torque a !!! i, bld_pitch a !!! i)) ])
           (seq 1 (length t_array - 1))).
Proof.
  intros H0 H1 Hws Hrun. cbv zeta. pose proof Hrun as Hrun'.
  unfold sim_ws_series in Hrun.
  rewrite (bind_time_step _ _ _ _ _ H0 H1) in Hrun.
  pose proof (lookup_lt_Some _ _ _ H1) as Hlen.
  unfold bind at 1 in Hrun.
  rewrite (select_variant_declared _ _ _ _ _ _ _ ws1) in Hrun by (done || lia).
  cbv zeta in Hrun.
  destruct (raised _) eqn:Hout.
  - destruct (logs_for_enumerate (fun ev => is_evaluate ev = false) _ t_array
                (loop_body_interpolated cc_evaluate interp_surface
                   call_controller float_pow self ws_array (t1 - t0)%float)
                _ _ _ _ _ Hrun) as (evs & Htr & Hall).
    simpl trace in Htr. rewrite <- app_assoc in Htr. exists evs.
    split; [exact Htr|]. intros _. split; [exact Hall|].
    intros a ->. apply run_Ok in Hrun'
      as (u0 & u1 & ws1' & cqs & K0 & K1 & Kws & _ & _ & _ & Ktr).
    assert (u0 = t0) as -> by congruence. assert (u1 = t1) as -> by congruence.
    assert (ws1' = ws1) as -> by congruence.
    cbv zeta in Ktr. rewrite Hout in Ktr. exists cqs.
    rewrite Ktr in Htr. apply app_inv_head in Htr. now injection Htr as <-.
  - destruct (logs_for_enumerate (fun _ => True) _ t_array
                (loop_body_logs cc_evaluate interp_surface
                   call_controller float_pow self ws_array (t1 - t0)%float false)
                _ _ _ _ _ Hrun) as (evs & Htr & _).
    simpl trace in Htr. rewrite <- app_assoc in Htr. exists evs.
    split; [exact Htr|]. intros [=].
Qed.

(** C2, as the code has it: a zero wind speed is not rejected. With a
    time array of at least two samples, a wind array at least as long, an
    evaluator that raises in the setup, and a surface and a controller
    that return, the run completes whatever the wind speeds are, zeros
    included; each turn i >= 1 divides rot_speed[i-1] * R by ws[i] as
    binary64 division does and hands the quotient to the surface. *)
Theorem C2_zero_wind_not_rejected self t_array ws_array rpm pitch s t0 t1 :
  t_array !! 0 = Some t0 -> t_array !! 1 = Some t1 ->
  length t_array <= length ws_array ->
  raised (fst (cc_evaluate (ws_array !!! 1)
                 (rpm * rpm2RadSec / rpm2RadSec)%float pitch (wld s))) = true ->
  (forall p tsr w, raised (fst (interp_surface p tsr w)) = false) ->
  (forall t dt p g r ws w,
     raised (fst (call_controller t dt p g r ws w)) = false) ->
  exists a s',
    sim_ws_series cc_evaluate interp_surface call_controller float_pow
    self t_array ws_array rpm pitch s = (Ok a, s') /\
    forall i, 1 <= i < length t_array ->
      exists cq : float,
        trace s' !! (length (trace s) + (2 * i - 1))
        = Some (EvInterp (bld_pitch a !!! (i - 1))
                  (rot_speed a !!! (i - 1)%nat * RotorRad (turbine self)
                   / ws_array !!! i)%float
                  (Ok cq)).
Proof.
  intros H0 H1 Hlen Hout Hi Hc.
  pose proof (lookup_lt_Some _ _ _ H1) as Hn.
  destruct (lookup_lt_is_Some_2 ws_array 1) as [ws1 Hws]; [lia|].
  rewrite (list_lookup_total_correct _ _ _ Hws) in Hout.
  assert (exists a s', sim_ws_series cc_evaluate interp_surface call_controller float_pow
    self t_array ws_array rpm pitch s = (Ok a, s'))
    as (a & s' & Hrun).
  { unfold sim_ws_series. rewrite (bind_time_step _ _ _ _ _ H0 H1).
    unfold bind at 1.
    rewrite (select_variant_declared _ _ _ _ _ _ _ ws1) by (done || lia).
    cbv zeta. rewrite Hout.
    apply (for_enumerate_total (fun _ c => lengths (length t_array) c)).
    - apply declare_arrays_lengths.
    - intros j x c u Hx _ Hl. rewrite Nat.sub_0_r in Hx.
      apply lookup_lt_Some in Hx.
      now apply loop_body_total. }
  exists a, s'. split; [exact Hrun|]. intros i Hlt.
  destruct (run_Ok_positions _ _ _ _ _ _ _ _ Hrun)
    as (u0 & u1 & ws1' & cqs & _ & _ & Kws & _ & Hpos).
  assert (ws1' = ws1) as -> by congruence. cbv zeta in Hpos.
  rewrite Hout in Hpos. destruct (Hpos i Hlt) as [Ha _].
  exists (cqs !!! i). exact Ha.
Qed.

(** C9: the two efficiencies that a run uses are the 0.95 and 0.95 that
    [Sim.__init__] stores. Whatever efficiencies the turbine object holds,
    the run is the same, however it ends; and in a completed run the rotor
    speed update and the generator power at every index i >= 1 carry the
    factor 0.95. *)
Theorem C9_efficiencies_fixed tb gb gen t_array ws_array rpm pitch :
  gb_eff (Sim_init (with_efficiencies tb gb gen)) = 0.95%float /\
  gen_eff (Sim_init (with_efficiencies tb gb gen)) = 0.95%float /\
  sim_ws_series cc_evaluate interp_surface call_controller float_pow
    (Sim_init (with_efficiencies tb gb gen)) t_array ws_array rpm pitch
  = sim_ws_series cc_evaluate interp_surface call_controller float_pow
      (Sim_init tb) t_array ws_array rpm pitch /\
  forall s a s' t0 t1 i,
    sim_ws_series cc_evaluate interp_surface call_controller float_pow
      (Sim_init (with_efficiencies tb gb gen))
      t_array ws_array rpm pitch s = (Ok a, s') ->
    t_array !! 0 = Some t0 -> t_array !! 1 = Some t1 ->
    1 <= i < length t_array ->
    rot_speed a !!! i
    = (rot_speed a !!! (i - 1)%nat
       + ((t1 - t0) / J tb) * (aero_torque a !!! i * 0.95
                               - Ng tb * gen_torque a !!! (i - 1)%nat))%float /\
    gen_power a !!! i
    = (gen_speed a !!! i * np_pi / 30.0 * gen_torque a !!! i * 0.95)%float.
Proof.
  split; [done|]. split; [done|]. split; [reflexivity|].
  intros s a s' t0 t1 i Hrun H0 H1 Hi.
  apply run_Ok in Hrun
    as (u0 & u1 & ws1 & cqs & K0 & K1 & Hws & Hl & Hf & Hsteps & Htr).
  assert (u0 = t0) as -> by congruence. assert (u1 = t1) as -> by congruence.
  destruct (Hsteps i Hi) as (_ & _ & Hrot & _ & Hpow).
  split; [exact Hrot|exact Hpow].
Qed.

(** C10: whatever the inputs, the declarations fill the aerodynamic torque
    series with 1000.0 and the generator torque series with 1.0 at every
    index. The turn at index 1 runs on the declared arrays and, when it
    returns, has written
    rot_speed[1] = rot_speed[0] + (dt / J) * (aero_torque[1] * gb_eff - Ng * 1.0);
    so it is in every completed run, where gen_torque[0] is still 1.0. *)
Theorem C10_placeholder_torques self t_array ws_array rpm pitch :
  let tb := turbine self in
  let a0 := declare_arrays tb t_array rpm pitch in
  aero_torque a0 = replicate (length t_array) 1000.0%float /\
  gen_torque a0 = replicate (length t_array) 1.0%float /\
  (forall dt use t s a1 s1,
     1 < length t_array ->
     loop_body cc_evaluate interp_surface call_controller float_pow
       self ws_array dt use 1 t a0 s = (Ok a1, s1) ->
     rot_speed a1 !! 1
     = Some (rot_speed a0 !!! 0%nat
             + (dt / J tb) * (aero_torque a1 !!! 1%nat * gb_eff self
                              - Ng tb * 1.0))%float) /\
  (forall s a s',
     sim_ws_series cc_evaluate interp_surface call_controller float_pow
       self t_array ws_array rpm pitch s = (Ok a, s') ->
     gen_torque a !! 0 = Some 1.0%float /\
     exists t0 t1 : float,
       t_array !! 0 = Some t0 /\ t_array !! 1 = Some t1 /\
       rot_speed a !! 1
       = Some (rot_speed a !!! 0%nat
               + ((t1 - t0) / J tb) * (aero_torque a !!! 1%nat * gb_eff self
                                       - Ng tb * 1.0))%float).
Proof.
  cbv zeta. split.
  { unfold declare_arrays, scale, ones_like; simpl. now rewrite fmap_replicate. }
  split; [done|]. split.
  - intros dt use t s a1 s1 Hlen Hrun.
    pose proof (declare_arrays_lengths (turbine self) t_array rpm pitch) as Hn.
    destruct (declare_arrays_0 (turbine self) t_array rpm pitch)
      as (_ & _ & _ & _ & Et & _); [lia|].
    set (a0 := declare_arrays (turbine self) t_array rpm pitch) in *.
    clearbody a0.
    destruct (ws_array !! 1) as [ws|] eqn:Hws.
    2:{ unfold loop_body in Hrun. simpl in Hrun.
        now rewrite bind_getitem_None in Hrun. }
    rewrite (loop_body_eq _ _ _ _ _ _ _ _ _ _ _ _ (length t_array) ws)
      in Hrun by (done || lia).
    cbv zeta in Hrun.
    destruct (fst (aero_source _ _ _ _ _ _ _ _)) as [cq|e]; [|done].
    destruct (fst (call_controller _ _ _ _ _ _ _)) as [cmd|e]; [|done].
    injection Hrun as <- <-.
    destruct Hn as (_ & Hr & _ & Hq & _).
    unfold write_step, next_rot_speed; simpl.
    rewrite list_lookup_insert_eq by lia.
    rewrite list_lookup_total_insert_eq by lia.
    now rewrite (list_lookup_total_correct _ _ _ Et).
  - intros s a s' Hrun. apply run_Ok in Hrun
      as (t0 & t1 & ws1 & cqs & H0 & H1 & Hws & Hl & Hf & Hsteps & Htr).
    pose proof (lookup_lt_Some _ _ _ H1) as Hlen.
    destruct (declare_arrays_0 (turbine self) t_array rpm pitch)
      as (_&_&_&_&E&_); [lia|].
    destruct Hf as (_ & _ & _ & _ & Ht & _). rewrite E in Ht.
    split; [exact Ht|]. exists t0, t1. split; [done|]. split; [done|].
    destruct (Hsteps 1) as (_ & _ & Hrot & _); [lia|].
    simpl in Hrot. rewrite (list_lookup_total_correct _ _ _ Ht) in Hrot.
    rewrite <- Hrot. apply list_lookup_lookup_total_lt.
    destruct Hl as (_ & -> & _). lia.
Qed.

End Properties.

(** * The properties on concrete runs *)

Section Runs.
Import Demo.

(** The time array needs two samples: line 62 raises otherwise, before
    anything is called. *)
Example run_one_sample :
  run [0%float] ws3 10%float 0%float = (Raise IndexError, s0).
Proof. reflexivity. Qed.

(** A wind array shorter than the time array stops the run at the first
    missing sample, after the turns before it. *)
Example run_short_wind :
  fst (run t3 [10; 10]%float 10%float 0%float) = Raise IndexError /\
  length (trace (snd (run t3 [10; 10]%float 10%float 0%float))) = 3.
Proof. split; reflexivity. Qed.

(** With a single wind sample the bare [except] of the setup swallows the
    [IndexError] of [ws_array[1]]: the evaluator is never called. *)
Example run_one_wind_sample :
  run_cc t3 [10%float] 10%float 0%float = (Raise IndexError, s0).
Proof. reflexivity. Qed.

(** With an evaluator that returns, every turn calls it again. *)
Example run_on_evaluator :
  filter (fun ev => is_evaluate ev)
         (trace (snd (run_cc t3 ws3 10%float 0%float)))
  = [ EvEvaluate 10 10 0 (Ok 0.03);
      EvEvaluate 10 10 0 (Ok 0.03);
      EvEvaluate 10 (rot_speed (series_of (run_cc t3 ws3 10 0)) !!! 1%nat
                     / rpm2RadSec)
                 0.5 (Ok 0.03) ]%float.
Proof. vm_compute. reflexivity. Qed.

Lemma run3_completes :
  sim_ws_series no_rotor flat_surface p_controller square
    (Sim_init tb) t3 ws3 10%float 0%float s0 = (Ok a3, s3).
Proof. vm_compute. reflexivity. Defined.

Lemma run_calm_completes :
  sim_ws_series no_rotor flat_surface p_controller square
    (Sim_init tb) t3 ws_calm 10%float 0%float s0 = (Ok a_calm, s_calm).
Proof. vm_compute. reflexivity. Defined.

Lemma index_2_of_3 : 1 <= 2 < length t3.
Proof. simpl. lia. Defined.

(** C1, at index 0: with 10 rpm and a gearbox ratio of 97 the run stores
    10 * 97 = 970 as the generator speed at index 0, while the rotor speed
    at index 0 is 10 rpm in rad/s and its product with the gearbox ratio
    is about 101.58. *)
Theorem C1_gen_speed_index0_mismatch :
  sim_ws_series no_rotor flat_surface p_controller square
    (Sim_init tb) t3 ws3 10%float 0%float s0 = (Ok a3, s3) /\
  gen_speed a3 !! 0 = Some 970%float /\
  rot_speed a3 !! 0 = Some (10 * rpm2RadSec)%float /\
  (970 <> 10 * rpm2RadSec * Ng tb)%float.
Proof.
  split; [exact run3_completes|]. split; [reflexivity|]. split; [reflexivity|].
  apply float_neq; vm_compute; reflexivity.
Qed.

Lemma C7_series_lengths_witness :
  length (bld_pitch a3) = length t3 /\
  length (rot_speed a3) = length t3 /\
  length (gen_speed a3) = length t3 /\
  length (aero_torque a3) = length t3 /\
  length (gen_torque a3) = length t3 /\
  length (gen_power a3) = length t3.
Proof.
  exact (C7_series_lengths no_rotor flat_surface p_controller square
           (Sim_init tb) t3 ws3 10%float 0%float s0 a3 s3 run3_completes).
Defined.

(** C6 with index 0 read as the supplied values themselves: the run above
    was given 10 rpm and 0 degrees, and index 0 of its rotor speed,
    aerodynamic torque and generator torque series holds neither. *)
Lemma C6_index0_not_verbatim_counterexample :
  sim_ws_series no_rotor flat_surface p_controller square
    (Sim_init tb) t3 ws3 10%float 0%float s0 = (Ok a3, s3) /\
  rot_speed a3 !! 0 = Some (10 * rpm2RadSec)%float /\
  (10 * rpm2RadSec <> 10)%float /\ (10 * rpm2RadSec <> 0)%float /\
  aero_torque a3 !! 0 = Some 1000%float /\
  (1000 <> 10)%float /\ (1000 <> 0)%float /\
  gen_torque a3 !! 0 = Some 1%float /\
  (1 <> 10)%float /\ (1 <> 0)%float.
Proof.
  split; [exact run3_completes|].
  repeat match goal with
         | |- _ /\ _ => split
         | |- _ = _ => reflexivity
         | |- _ <> _ => apply float_neq; vm_compute; reflexivity
         end.
Qed.

Lemma C6_index0_untouched_witness :
  (forall dt use t b u,
     loop_body no_rotor flat_surface p_controller square
       (Sim_init tb) ws3 dt use 0 t b u = (Ok b, u)) /\
  same_at 0 a3 (declare_arrays tb t3 10%float 0%float) /\
  bld_pitch a3 !! 0 = Some 0%float /\
  rot_speed a3 !! 0 = Some (10 * rpm2RadSec)%float /\
  aero_torque a3 !! 0 = Some 1000%float /\
  gen_torque a3 !! 0 = Some 1%float /\
  gen_power a3 !! 0 = Some 0%float.
Proof.
  exact (C6_index0_untouched no_rotor flat_surface p_controller square
           (Sim_init tb) t3 ws3 10%float 0%float s0 a3 s3 run3_completes).
Defined.

(** C3 at index 1: in the run above the update of rot_speed[1] reads
    gen_torque[0] = 1.0. Before it nothing has called the controller: the
    log starts with the evaluator call of the setup and the query of turn
    1, and the first call to the controller, entry 2, already receives
    rot_speed[1]. Nor is 1.0 a torque that the controller returns anywhere
    in this run. *)
Lemma C3_first_update_placeholder_counterexample :
  sim_ws_series no_rotor flat_surface p_controller square
    (Sim_init tb) t3 ws3 10%float 0%float s0 = (Ok a3, s3) /\
  1 <= 1 < length t3 /\
  gen_torque a3 !! (1 - 1) = Some 1%float /\
  rot_speed a3 !! 1
  = Some (rot_speed a3 !!! 0%nat
          + ((1 - 0) / J tb) * (aero_torque a3 !!! 1%nat * 0.95
                                - Ng tb * 1))%float /\
  calls is_controller (take 2 (trace s3)) = 0 /\
  trace s3 !! 2
  = Some (EvController 1 (1 - 0) 0 (gen_speed a3 !!! 1%nat)
            (rot_speed a3 !!! 1%nat) 10
            (Ok (gen_torque a3 !!! 1%nat, bld_pitch a3 !!! 1%nat)))%float /\
  Forall (fun ev => match ev with
                    | EvController _ _ _ _ _ _ (Ok (tq, _)) => tq <> 1%float
                    | _ => True
                    end) (trace s3).
Proof.
  split; [exact run3_completes|]. split; [simpl; lia|].
  split; [reflexivity|]. split; [reflexivity|]. split; [reflexivity|].
  split; [reflexivity|].
  repeat constructor; apply float_neq; vm_compute; reflexivity.
Qed.

Lemma C3_rotor_speed_forward_euler_witness :
  (rot_speed a3 !!! 1
   = (rot_speed a3 !!! 0%nat
      + ((1 - 0) / J tb) * (aero_torque a3 !!! 1%nat * 0.95
                            - Ng tb * gen_torque a3 !!! 0%nat))%float /\
   rot_speed a3 !!! 2
   = (rot_speed a3 !!! 1%nat
      + ((1 - 0) / J tb) * (aero_torque a3 !!! 2%nat * 0.95
                            - Ng tb * gen_torque a3 !!! 1%nat))%float) /\
  trace s3 !! (length (trace s0) + 2 * (2 - 1))
  = Some (EvController (t3 !!! 1) (1 - 0)%float (bld_pitch a3 !!! 0)
            (gen_speed a3 !!! 1) (rot_speed a3 !!! 1) (ws3 !!! 1)
            (Ok (gen_torque a3 !!! 1, bld_pitch a3 !!! 1))) /\
  gen_torque a3 !!! 0 = 1%float /\
  calls is_controller (take 2 (drop (length (trace s0)) (trace s3))) = 0.
Proof.
  pose proof (C3_rotor_speed_forward_euler no_rotor flat_surface p_controller
                square (Sim_init tb) t3 ws3 10%float 0%float s0 a3 s3
                0%float 1%float run3_completes eq_refl eq_refl)
    as (Hform & Hctrl & Hone & Hnone).
  split; [split|split; [|split]].
  - refine (proj2 (proj2 (proj2 (Hform 1 _)))). simpl. lia.
  - exact (proj2 (proj2 (proj2 (Hform 2 index_2_of_3)))).
  - refine (Hctrl 2 _). simpl. lia.
  - exact Hone.
  - exact Hnone.
Defined.

(** C8 with the factor grouped as (pi / 30): at index 2 of the run above the stored
    power 43999.952776280494 is not the value of
    gen_speed[2] * (pi / 30) * gen_torque[2] * 0.95, which rounds to
    43999.952776280486. *)
Lemma C8_grouped_factor_counterexample :
  sim_ws_series no_rotor flat_surface p_controller square
    (Sim_init tb) t3 ws3 10%float 0%float s0 = (Ok a3, s3) /\
  1 <= 2 < length t3 /\
  gen_power a3 !!! 2
  <> (gen_speed a3 !!! 2%nat * (np_pi / 30.0) * gen_torque a3 !!! 2%nat
      * gen_eff (Sim_init tb))%float.
Proof.
  split; [exact run3_completes|]. split; [exact index_2_of_3|].
  apply float_neq; vm_compute; reflexivity.
Qed.

Lemma C8_gen_power_left_to_right_witness :
  2 < length (gen_power a3) /\ 2 < length (gen_speed a3) /\
  2 < length (gen_torque a3) /\
  gen_power a3 !!! 2
  = (gen_speed a3 !!! 2%nat * np_pi / 30.0 * gen_torque a3 !!! 2%nat
     * gen_eff (Sim_init tb))%float.
Proof.
  exact (C8_gen_power_left_to_right no_rotor flat_surface p_controller square
           (Sim_init tb) t3 ws3 10%float 0%float s0 a3 s3 2
           run3_completes index_2_of_3).
Defined.


Lemma C4_fallback_fixed_witness :
  raised (fst (no_rotor 10 (10 * rpm2RadSec / rpm2RadSec) 0 (wld s0)))%float
  = true /\
  let tb := turbine (Sim_init tb) in
  let rpm0 := (10 * rpm2RadSec / rpm2RadSec)%float in
  let out := fst (no_rotor 10%float rpm0 0%float (wld s0)) in
  exists evs : list event,
    trace s3 = trace s0 ++ EvEvaluate 10%float rpm0 0%float out :: evs /\
    (raised out = true ->
     Forall (fun ev => is_evaluate ev = false) evs /\
     forall a, Ok a3 = Ok a ->
       exists cqs : list float,
         evs = flat_map (fun i : nat =>
           [ EvInterp (bld_pitch a !!! (i - 1))
               (rot_speed a !!! (i - 1)%nat * RotorRad tb / ws3 !!! i)%float
               (Ok (cqs !!! i));
             EvController (t3 !!! i) (1 - 0)%float
               (bld_pitch a !!! (i - 1)) (gen_speed a !!! i)
               (rot_speed a !!! i) (ws3 !!! i)
               (Ok (gen_torque a !!! i, bld_pitch a !!! i)) ])
           (seq 1 (length t3 - 1))).
Proof.
  split; [reflexivity|].
  exact (C4_fallback_fixed no_rotor flat_surface p_controller square
           (Sim_init tb) t3 ws3 10%float 0%float s0 (Ok a3) s3
           0%float 1%float 10%float eq_refl eq_refl eq_refl run3_completes).
Defined.

(** C2 on a wind array with a zero: [10; 10; 0] holds a zero, yet the run
    raises nothing and completes; at index 2 the tip speed
    ratio rot_speed[1] * R / 0 is computed, it is infinity, and the
    surface is queried with it. *)
Lemma C2_zero_wind_counterexample :
  In 0%float ws_calm /\
  sim_ws_series no_rotor flat_surface p_controller square
    (Sim_init tb) t3 ws_calm 10%float 0%float s0
  = (Ok a_calm, s_calm) /\
  (rot_speed a_calm !!! 1%nat * RotorRad tb / ws_calm !!! 2%nat)%float
  = infinity /\
  trace s_calm !! 3 = Some (EvInterp 0.5%float infinity (Ok 0.02%float)).
Proof.
  split; [right; right; left; reflexivity|].
  split; [exact run_calm_completes|]. split; reflexivity.
Qed.

Lemma C2_zero_wind_not_rejected_witness :
  In 0%float ws_calm /\
  exists a s',
    sim_ws_series no_rotor flat_surface p_controller square
    (Sim_init tb) t3 ws_calm 10%float 0%float s0 = (Ok a, s') /\
    forall i, 1 <= i < length t3 ->
      exists cq : float,
        trace s' !! (length (trace s0) + (2 * i - 1))
        = Some (EvInterp (bld_pitch a !!! (i - 1))
                  (rot_speed a !!! (i - 1)%nat * RotorRad (turbine (Sim_init tb))
                   / ws_calm !!! i)%float
                  (Ok cq)).
Proof.
  split; [right; right; left; reflexivity|].
  apply (C2_zero_wind_not_rejected no_rotor flat_surface p_controller square
           (Sim_init tb) t3 ws_calm 10%float 0%float s0 0%float 1%float).
  - reflexivity.
  - reflexivity.
  - simpl. lia.
  - reflexivity.
  - intros p tsr w. reflexivity.
  - intros t dt p g r ws w. reflexivity.
Defined.

Lemma run3_other_efficiencies :
  sim_ws_series no_rotor flat_surface p_controller square
    (Sim_init (with_efficiencies tb 0.5 0.25)) t3 ws3 10%float 0%float s0
  = (Ok a3, s3).
Proof. vm_compute. reflexivity. Defined.

Lemma C9_efficiencies_fixed_witness :
  rot_speed a3 !!! 2
  = (rot_speed a3 !!! 1%nat
     + ((1 - 0) / J tb) * (aero_torque a3 !!! 2%nat * 0.95
                           - Ng tb * gen_torque a3 !!! 1%nat))%float /\
  gen_power a3 !!! 2
  = (gen_speed a3 !!! 2%nat * np_pi / 30.0 * gen_torque a3 !!! 2%nat * 0.95)%float.
Proof.
  exact (proj2 (proj2 (proj2
           (C9_efficiencies_fixed no_rotor flat_surface p_controller square
              tb 0.5%float 0.25%float t3 ws3 10%float 0%float)))
           s0 a3 s3 0%float 1%float 2
           run3_other_efficiencies eq_refl eq_refl index_2_of_3).
Defined.

Lemma step1_on_declared_arrays :
  loop_body no_rotor flat_surface p_controller square (Sim_init tb) ws3
    1%float true 1 1%float (declare_arrays tb t3 10%float 0%float) s0
  = (Ok (write_step square (Sim_init tb) 1%float 1 10%float 0.02%float
           (gen_speed a3 !!! 1%nat * 40.0, 0.5)%float
           (declare_arrays tb t3 10%float 0%float)),
     {| wld := 1;
        trace := [ EvInterp 0 (10 * rpm2RadSec * 63.0 / 10) (Ok 0.02);
                   EvController 1 1 0 (gen_speed a3 !!! 1%nat)
                     (rot_speed a3 !!! 1%nat) 10
                     (Ok (gen_speed a3 !!! 1%nat * 40.0, 0.5)) ]%float |}).
Proof. vm_compute. reflexivity. Defined.

Lemma C10_placeholder_torques_witness :
  (rot_speed (write_step square (Sim_init tb) 1%float 1 10%float 0.02%float
                (gen_speed a3 !!! 1%nat * 40.0, 0.5)%float
                (declare_arrays tb t3 10%float 0%float)) !! 1
   = Some (rot_speed (declare_arrays tb t3 10 0) !!! 0%nat
           + (1 / J tb) * (aero_torque
                             (write_step square (Sim_init tb) 1 1 10 0.02
                                (gen_speed a3 !!! 1%nat * 40.0, 0.5)
                                (declare_arrays tb t3 10 0)) !!! 1%nat
                           * gb_eff (Sim_init tb) - Ng tb * 1.0))%float) /\
  gen_torque a3 !! 0 = Some 1.0%float /\
  exists t0 t1 : float,
    t3 !! 0 = Some t0 /\ t3 !! 1 = Some t1 /\
    rot_speed a3 !! 1
    = Some (rot_speed a3 !!! 0%nat
            + ((t1 - t0) / J tb) * (aero_torque a3 !!! 1%nat
                                    * gb_eff (Sim_init tb) - Ng tb * 1.0))%float.
Proof.
  pose proof (C10_placeholder_torques no_rotor flat_surface p_controller square
                (Sim_init tb) t3 ws3 10%float 0%float) as (_ & _ & H1 & H).
  split.
  - refine (H1 1%float true 1%float s0 _ _ _ step1_on_declared_arrays).
    simpl. lia.
  - exact (H s0 a3 s3 run3_completes).
Defined.

End Runs.

(** * Further properties of [sim_ws_series] *)

Section Further.
Context {world : Type}.
Variable cc_evaluate : float -> float -> float -> world -> result float * world.
Variable interp_surface : float -> float -> world -> result float * world.
Variable call_controller :
  float -> float -> float -> float -> float -> float ->
  world -> result (float * float) * world.
Variable float_pow : float -> float -> float.

Local Abbreviation body :=
  (loop_body cc_evaluate interp_surface call_controller float_pow).

(** X2: with fewer than two time samples the run raises [IndexError] at
    once, before anything is called. *)
Theorem sim_needs_two_time_samples self t_array ws_array rpm pitch s :
  length t_array < 2 ->
  sim_ws_series cc_evaluate interp_surface call_controller float_pow
    self t_array ws_array rpm pitch s = (Raise IndexError, s).
Proof.
  intros Hlen. unfold sim_ws_series, time_step, bind at 1.
  rewrite bind_getitem_None; [done|]. apply lookup_ge_None. lia.
Qed.

(** X3: with fewer than two wind samples the run raises [IndexError] and
    calls nothing, the evaluator included: the bare [except] of the setup
    swallows the failure to read [ws_array[1]] and selects the tables, and
    the turn at index 1 fails to read the same entry. *)
Theorem sim_needs_two_wind_samples self t_array ws_array rpm pitch s :
  length ws_array < 2 ->
  sim_ws_series cc_evaluate interp_surface call_controller float_pow
    self t_array ws_array rpm pitch s = (Raise IndexError, s).
Proof.
  intros Hlen. assert (Hws : ws_array !! 1 = None) by (apply lookup_ge_None; lia).
  destruct (Nat.lt_ge_cases (length t_array) 2) as [Ht|Ht].
  { now apply sim_needs_two_time_samples. }
  destruct t_array as [|x0 [|x1 rest]]; simpl in Ht; try lia.
  unfold sim_ws_series.
  rewrite (bind_time_step _ x0 x1) by done.
  unfold bind at 1. rewrite select_variant_short by done.
  simpl for_enumerate. unfold bind at 1. unfold loop_body at 1. simpl.
  unfold bind at 1. unfold loop_body at 1. simpl.
  now rewrite bind_getitem_None.
Qed.

(** X4: a wind array shorter than the time array never lets the run
    complete, whatever the collaborators do. *)
Theorem sim_short_wind_never_completes self t_array ws_array rpm pitch s r s' :
  length ws_array < length t_array ->
  sim_ws_series cc_evaluate interp_surface call_controller float_pow
    self t_array ws_array rpm pitch s = (r, s') ->
  raised r = true.
Proof.
  intros Hlen Hrun. destruct r as [a|e]; [|done]. exfalso.
  apply run_Ok in Hrun
    as (t0 & t1 & ws1 & cqs & H0 & H1 & Hws & Hl & Hf & Hsteps & Htr).
  apply lookup_lt_Some in H1.
  destruct (Hsteps (length t_array - 1)) as [Hlt _]; lia.
Qed.

Lemma bind_ext {A B} (m : M world A) (k1 k2 : A -> M world B) s :
  (forall x s1, k1 x s1 = k2 x s1) -> bind m k1 s = bind m k2 s.
Proof. intros H. unfold bind. destruct (m s) as [[x|e] s1]; [apply H|done]. Qed.

Lemma for_enumerate_ext {St} (f g : nat -> float -> St -> M world St) l :
  forall k b s,
  (forall j x c u, l !! (j - k) = Some x -> k <= j -> f j x c u = g j x c u) ->
  for_enumerate f k l b s = for_enumerate g k l b s.
Proof.
  induction l as [|x l IH]; intros k b s H; simpl; [done|].
  unfold bind. rewrite (H k x b s) by (rewrite ?Nat.sub_diag; done || lia).
  destruct (g k x b s) as [[c|e] u]; [|done].
  apply IH. intros j y d v Hy Hj. apply H; [|lia].
  replace (j - k) with (S (j - S k)) by lia. exact Hy.
Qed.

(** X5: without the plots (make_plots=False), the simulation reads the
    wind array only at the indices 1, ..., len(t_array) - 1. Two wind
    arrays that agree there give the same series, the same calls and the
    same exception if any: the first wind sample and the samples beyond
    the time array play no part in the simulation. (The plots, when
    asked for, draw the whole wind array.) *)
Theorem sim_wind_dependence self t_array ws ws' rpm pitch s :
  (forall i, 1 <= i < length t_array -> ws !! i = ws' !! i) ->
  sim_ws_series cc_evaluate interp_surface call_controller float_pow
    self t_array ws rpm pitch s
  = sim_ws_series cc_evaluate interp_surface call_controller float_pow
      self t_array ws' rpm pitch s.
Proof.
  intros H. destruct (Nat.lt_ge_cases (length t_array) 2) as [Ht|Ht].
  { now rewrite !sim_needs_two_time_samples. }
  unfold sim_ws_series. apply bind_ext. intros dt s1.
  assert (E : forall a, select_variant cc_evaluate ws a s1
                        = select_variant cc_evaluate ws' a s1).
  { intros a. unfold select_variant, try_except, bind at 1 5, getitem at 1 4.
    now rewrite (H 1) by lia. }
  unfold bind at 1 2. rewrite E.
  destruct (select_variant _ _ _ _) as [[use|e] s2]; [|done].
  apply for_enumerate_ext. intros j x c u Hx _.
  rewrite Nat.sub_0_r in Hx. apply lookup_lt_Some in Hx.
  unfold loop_body. destruct (Nat.eqb_spec j 0) as [->|Hj]; [done|].
  assert (Eg : @getitem world ws j = getitem ws' j).
  { unfold getitem. now rewrite (H j) by lia. }
  now rewrite Eg.
Qed.

(** On the evaluator no turn of the loop queries the surface. *)
Lemma loop_body_evaluator self ws_array dt i t a :
  logs (fun e => is_interp e = false) (body self ws_array dt false i t a).
Proof.
  unfold loop_body. destruct (Nat.eqb i 0); [apply logs_ret|].
  unfold load_cq, evaluate, controller. logs_steps.
Qed.

(** X6: if the evaluator call of the setup returns, the evaluator is the
    variant for the whole run: nothing logged afterwards is a query to the
    interpolated surface, however the run ends; and if the run completes,
    every turn i >= 1 has called the evaluator with the wind speed ws[i],
    the rotor speed rot_speed[i-1] converted back to rpm and the pitch
    bld_pitch[i-1]. *)
Theorem sim_evaluator_variant_fixed self t_array ws_array rpm pitch s r s'
    t0 t1 ws1 :
  t_array !! 0 = Some t0 -> t_array !! 1 = Some t1 ->
  ws_array !! 1 = Some ws1 ->
  raised (fst (cc_evaluate ws1 (rpm * rpm2RadSec / rpm2RadSec)%float pitch
                 (wld s))) = false ->
  sim_ws_series cc_evaluate interp_surface call_controller float_pow
    self t_array ws_array rpm pitch s = (r, s') ->
  let rpm0 := (rpm * rpm2RadSec / rpm2RadSec)%float in
  let out := fst (cc_evaluate ws1 rpm0 pitch (wld s)) in
  exists evs : list event,
    trace s' = trace s ++ EvEvaluate ws1 rpm0 pitch out :: evs /\
    Forall (fun ev => is_interp ev = false) evs /\
    forall a, r = Ok a ->
      exists cqs : list float,
        evs = flat_map (fun i : nat =>
          [ EvEvaluate (ws_array !!! i)
              (rot_speed a !!! (i - 1)%nat / rpm2RadSec)%float
              (bld_pitch a !!! (i - 1)) (Ok (cqs !!! i));
            EvController (t_array !!! i) (t1 - t0)%float
              (bld_pitch a !!! (i - 1)) (gen_speed a !!! i)
              (rot_speed a !!! i) (ws_array !!! i)
              (Ok (gen_torque a !!! i, bld_pitch a !!! i)) ])
          (seq 1 (length t_array - 1)).
Proof.
  intros H0 H1 Hws Hout Hrun. cbv zeta. pose proof Hrun as Hrun'.
  unfold sim_ws_series in Hrun.
  rewrite (bind_time_step _ _ _ _ _ H0 H1) in Hrun.
  pose proof (lookup_lt_Some _ _ _ H1) as Hlen.
  unfold bind at 1 in Hrun.
  rewrite (select_variant_declared _ _ _ _ _ _ _ ws1) in Hrun by (done || lia).
  cbv zeta in Hrun. rewrite Hout in Hrun.
  destruct (logs_for_enumerate (fun ev => is_interp ev = false) _ t_array
              (loop_body_evaluator self ws_array (t1 - t0)%float)
              _ _ _ _ _ Hrun) as (evs & Htr & Hall).
  simpl trace in Htr. rewrite <- app_assoc in Htr. exists evs.
  split; [exact Htr|]. split; [exact Hall|].
  intros a ->. apply run_Ok in Hrun'
    as (u0 & u1 & ws1' & cqs & K0 & K1 & Kws & _ & _ & _ & Ktr).
  assert (u0 = t0) as -> by congruence. assert (u1 = t1) as -> by congruence.
  assert (ws1' = ws1) as -> by congruence.
  cbv zeta in Ktr. rewrite Hout in Ktr. exists cqs.
  rewrite Ktr in Htr. apply app_inv_head in Htr. now injection Htr as <-.
Qed.

Lemma calls_app p l1 l2 : calls p (l1 ++ l2) = calls p l1 + calls p l2.
Proof. unfold calls. now rewrite List.filter_app, length_app. Qed.

Lemma calls_pairs (p : event -> bool) (f : nat -> list event) l c :
  (forall i, calls p (f i) = c) -> calls p (flat_map f l) = c * length l.
Proof.
  intros Hf. induction l as [|i l IH].
  - unfold calls. simpl. lia.
  - simpl flat_map. rewrite calls_app, Hf, IH. simpl length. lia.
Qed.

(** X7: in a completed run over n time samples the loop has called the
    controller exactly n - 1 times and queried the aerodynamic source
    exactly n - 1 times, once each for every index from 1 on and never for
    index 0. The log of the run is the entry of the setup, where the
    evaluator is tried, followed by these 2 (n - 1) calls. *)
Theorem sim_call_counts self t_array ws_array rpm pitch s a s' :
  sim_ws_series cc_evaluate interp_surface call_controller float_pow
    self t_array ws_array rpm pitch s = (Ok a, s') ->
  exists (setup : event) (evs : list event),
    trace s' = trace s ++ setup :: evs /\
    is_evaluate setup = true /\
    calls is_controller evs = length t_array - 1 /\
    calls (fun ev => is_evaluate ev || is_interp ev) evs
    = length t_array - 1 /\
    length evs = 2 * (length t_array - 1).
Proof.
  intros Hrun. apply run_Ok in Hrun
    as (t0 & t1 & ws1 & cqs & H0 & H1 & Hws & Hl & Hf & Hsteps & Htr).
  cbv zeta in Htr. eexists _, _. split; [exact Htr|]. split; [done|].
  match goal with |- context [flat_map ?f _] => set (g := f) end.
  rewrite (calls_pairs is_controller g _ 1).
  2:{ intros i. unfold g, step_events, aero_event. now destruct (raised _). }
  rewrite (calls_pairs (fun ev => is_evaluate ev || is_interp ev) g _ 1).
  2:{ intros i. unfold g, step_events, aero_event. now destruct (raised _). }
  assert (Hlen : forall l, length (flat_map g l) = 2 * length l).
  { intros l. induction l as [|i l IH]; simpl; lia. }
  rewrite Hlen, length_seq. lia.
Qed.

End Further.

(** ** The further properties on concrete runs *)

Section FurtherRuns.
Import Demo.

Lemma sim_needs_two_time_samples_witness :
  sim_ws_series no_rotor flat_surface p_controller square
    (Sim_init tb) [0%float] ws3 10%float 0%float s0 = (Raise IndexError, s0).
Proof.
  apply (sim_needs_two_time_samples no_rotor flat_surface p_controller square).
  simpl. lia.
Defined.

Lemma sim_needs_two_wind_samples_witness :
  sim_ws_series flat_rotor flat_surface p_controller square
    (Sim_init tb) t3 [10%float] 10%float 0%float s0 = (Raise IndexError, s0).
Proof.
  apply (sim_needs_two_wind_samples flat_rotor flat_surface p_controller square).
  simpl. lia.
Defined.

Lemma run_short_wind_eq :
  sim_ws_series no_rotor flat_surface p_controller square
    (Sim_init tb) t3 [10; 10]%float 10%float 0%float s0
  = (fst (run t3 [10; 10]%float 10 0), snd (run t3 [10; 10]%float 10 0)).
Proof. vm_compute. reflexivity. Defined.

Lemma sim_short_wind_never_completes_witness :
  raised (fst (run t3 [10; 10]%float 10 0)) = true.
Proof.
  apply (sim_short_wind_never_completes no_rotor flat_surface p_controller
           square (Sim_init tb) t3 [10; 10]%float 10%float 0%float s0 _
           (snd (run t3 [10; 10]%float 10 0))).
  - simpl. lia.
  - exact run_short_wind_eq.
Defined.

Lemma sim_wind_dependence_witness :
  sim_ws_series no_rotor flat_surface p_controller square
    (Sim_init tb) t3 ws3 10%float 0%float s0
  = sim_ws_series no_rotor flat_surface p_controller square
      (Sim_init tb) t3 [99; 10; 10; 7; 7]%float 10%float 0%float s0.
Proof.
  apply (sim_wind_dependence no_rotor flat_surface p_controller square).
  intros i Hi. simpl in Hi.
  destruct i as [|[|[|i]]]; [lia|reflexivity|reflexivity|lia].
Defined.

Lemma run_cc_completes :
  sim_ws_series flat_rotor flat_surface p_controller square
    (Sim_init tb) t3 ws3 10%float 0%float s0 = (Ok a_cc, s_cc).
Proof. vm_compute. reflexivity. Defined.

Lemma sim_evaluator_variant_fixed_witness :
  let rpm0 := (10 * rpm2RadSec / rpm2RadSec)%float in
  let out := fst (flat_rotor 10%float rpm0 0%float (wld s0)) in
  exists evs : list event,
    trace s_cc = trace s0 ++ EvEvaluate 10%float rpm0 0%float out :: evs /\
    Forall (fun ev => is_interp ev = false) evs /\
    forall a, Ok a_cc = Ok a ->
      exists cqs : list float,
        evs = flat_map (fun i : nat =>
          [ EvEvaluate (ws3 !!! i)
              (rot_speed a !!! (i - 1)%nat / rpm2RadSec)%float
              (bld_pitch a !!! (i - 1)) (Ok (cqs !!! i));
            EvController (t3 !!! i) (1 - 0)%float
              (bld_pitch a !!! (i - 1)) (gen_speed a !!! i)
              (rot_speed a !!! i) (ws3 !!! i)
              (Ok (gen_torque a !!! i, bld_pitch a !!! i)) ])
          (seq 1 (length t3 - 1)).
Proof.
  exact (sim_evaluator_variant_fixed flat_rotor flat_surface p_controller square
           (Sim_init tb) t3 ws3 10%float 0%float s0 (Ok a_cc) s_cc
           0%float 1%float 10%float eq_refl eq_refl eq_refl eq_refl
           run_cc_completes).
Defined.

Lemma sim_call_counts_witness :
  exists (setup : event) (evs : list event),
    trace s3 = trace s0 ++ setup :: evs /\
    is_evaluate setup = true /\
    calls is_controller evs = length t3 - 1 /\
    calls (fun ev => is_evaluate ev || is_interp ev) evs = length t3 - 1 /\
    length evs = 2 * (length t3 - 1).
Proof.
  exact (sim_call_counts no_rotor flat_surface p_controller square
           (Sim_init tb) t3 ws3 10%float 0%float s0 a3 s3 run3_completes).
Defined.

Lemma gen_speed_tracks_rotor_speed_witness :
  2 < length (gen_speed a3) /\ 2 < length (rot_speed a3) /\
  gen_speed a3 !!! 2 = (rot_speed a3 !!! 2%nat * Ng tb)%float.
Proof.
  exact (gen_speed_tracks_rotor_speed no_rotor flat_surface p_controller square
           (Sim_init tb) t3 ws3 10%float 0%float s0 a3 s3 2
           run3_completes index_2_of_3).
Defined.

End FurtherRuns.

(** * Properties of [run_testing] *)

Section RunTestingFacts.
Import RunTesting.
Local Open Scope string_scope.

Lemma lower_char_idempotent c : lower_char (lower_char c) = lower_char c.
Proof. destruct c as [[] [] [] [] [] [] [] []]; reflexivity. Qed.

Lemma lower_idempotent s : lower (lower s) = lower s.
Proof.
  induction s as [|c s IH]; simpl; [done|].
  now rewrite lower_char_idempotent, IH.
Qed.

Ltac split_eqb :=
  repeat match goal with
         | H : context [String.eqb ?a ?b] |- _ =>
             destruct (String.eqb_spec a b)
         | |- context [String.eqb ?a ?b] =>
             destruct (String.eqb_spec a b)
         | H : context [(?n <? ?m)%nat] |- _ =>
             destruct (Nat.ltb_spec n m)
         | |- context [(?n <? ?m)%nat] =>
             destruct (Nat.ltb_spec n m)
         end.

(** X9: when [run_testing] gets as far as calling a test method, the
    turbine was one of the two known names and the object carries its
    class I, its turbulence class, its directory under the working
    directory and its input file; a lite or heavy test runs with the
    first of the binaries as [rosco_path], a comparison is handed the
    whole list, which then has at least two entries, and leaves
    [rosco_path] as the constructor set it. *)
Theorem run_testing_returns cwd rt turbine2test testtype rosco_binaries
    discon_files rt' call :
  run_testing cwd rt turbine2test testtype rosco_binaries discon_files
  = inr (rt', call) ->
  Turbine_Class rt' = "I" /\
  ((turbine2test = "NREL-5MW" /\ Turbulence_Class rt' = "A" /\
    FAST_directory rt' = path_join cwd "../Test_Cases/NREL-5MW" /\
    FAST_InputFile rt' = "NREL-5MW.fst") \/
   (turbine2test = "IEA-15MW" /\ Turbulence_Class rt' = "B" /\
    FAST_directory rt'
    = path_join cwd "../Test_Cases/IEA-15-240-RWT-UMaineSemi" /\
    FAST_InputFile rt' = "IEA-15-240-RWT-UMaineSemi.fst")) /\
  ((lower testtype = "lite" /\ call = ROSCO_Test_lite /\
    head rosco_binaries = Some (rosco_path rt')) \/
   (lower testtype = "heavy" /\ call = ROSCO_Test_heavy /\
    head rosco_binaries = Some (rosco_path rt')) \/
   (lower testtype = "binary-comp" /\
    call = ROSCO_Controller_Comp rosco_binaries /\
    2 <= length rosco_binaries /\ rosco_path rt' = rosco_path rt) \/
   (lower testtype = "discon-comp" /\
    call = ROSCO_DISCON_Comp discon_files /\
    2 <= length discon_files /\ rosco_path rt' = rosco_path rt)).
Proof.
  unfold run_testing, check_inputs, setup_turbine, run_test.
  intros H. split_eqb; simpl in H; try discriminate;
    try (destruct rosco_binaries as [|b bins]; [discriminate|]);
    injection H as <- <-; simpl;
    (split; [reflexivity|]);
    (split; [first [left; repeat split; done | right; repeat split; done]|]);
    first [ left; repeat split; done
          | right; left; repeat split; done
          | right; right; left; repeat split; (done || lia)
          | right; right; right; repeat split; (done || lia)
          | congruence ].
Qed.

(** X10: with no binaries, which is the default, a lite or a heavy test
    on a known turbine ends in the [IndexError] of [rosco_binaries[0]],
    and on an unknown turbine in the [ValueError] that names the turbine. *)
Theorem run_testing_no_binaries cwd rt turbine2test testtype discon_files :
  lower testtype = "lite" \/ lower testtype = "heavy" ->
  run_testing cwd rt turbine2test testtype [] discon_files
  = inl (if String.eqb turbine2test "NREL-5MW"
            || String.eqb turbine2test "IEA-15MW"
         then ListIndexError
         else ValueError
                (turbine2test ++ " is not an available turbine to test!")).
Proof.
  unfold run_testing, check_inputs, setup_turbine, run_test.
  intros [H|H]; rewrite H; simpl; split_eqb; simpl; congruence.
Qed.

(** X11: the test type is matched without regard to the case of its
    letters: for each of the four test types, spelling it in lower case
    changes nothing. *)
Theorem run_testing_case_insensitive cwd rt turbine2test testtype
    rosco_binaries discon_files :
  lower testtype = "lite" \/ lower testtype = "heavy" \/
  lower testtype = "binary-comp" \/ lower testtype = "discon-comp" ->
  run_testing cwd rt turbine2test (lower testtype) rosco_binaries discon_files
  = run_testing cwd rt turbine2test testtype rosco_binaries discon_files.
Proof.
  intros H. unfold run_testing, check_inputs, run_test.
  rewrite !lower_idempotent.
  destruct H as [H|[H|[H|H]]]; rewrite H; simpl; reflexivity.
Qed.

(** X12: an unknown turbine never reaches a test method. Unless one of
    the two list checks fails first, the [ValueError] names the turbine,
    also when the test type is invalid as well. *)
Theorem run_testing_unknown_turbine cwd rt turbine2test testtype
    rosco_binaries discon_files :
  turbine2test <> "NREL-5MW" -> turbine2test <> "IEA-15MW" ->
  exists msg,
    run_testing cwd rt turbine2test testtype rosco_binaries discon_files
    = inl (ValueError msg) /\
    (msg = too_few_binaries /\ lower testtype = "binary-comp" /\
     length rosco_binaries < 2
     \/ msg = too_few_discon_files /\ lower testtype = "discon-comp" /\
        length discon_files < 2
     \/ msg = turbine2test ++ " is not an available turbine to test!").
Proof.
  intros H1 H2. unfold run_testing, check_inputs, setup_turbine.
  split_eqb; simpl; try congruence; eexists; (split; [reflexivity|]); auto.
Qed.

Lemma run_testing_lite_example :
  run_testing "/home/u/ROSCO_testing" rt0 "NREL-5MW" "Lite" ["a.so"; "b.so"] []
  = inr ({| Turbine_Class := "I"; Turbulence_Class := "A";
            FAST_directory := "/home/u/ROSCO_testing/../Test_Cases/NREL-5MW";
            FAST_InputFile := "NREL-5MW.fst"; rosco_path := "a.so" |},
         ROSCO_Test_lite).
Proof. reflexivity. Defined.

Lemma run_testing_returns_witness :
  "I" = "I" /\
  (("NREL-5MW" = "NREL-5MW" /\ "A" = "A" /\
    "/home/u/ROSCO_testing/../Test_Cases/NREL-5MW"
    = path_join "/home/u/ROSCO_testing" "../Test_Cases/NREL-5MW" /\
    "NREL-5MW.fst" = "NREL-5MW.fst") \/
   ("NREL-5MW" = "IEA-15MW" /\ "A" = "B" /\
    "/home/u/ROSCO_testing/../Test_Cases/NREL-5MW"
    = path_join "/home/u/ROSCO_testing"
        "../Test_Cases/IEA-15-240-RWT-UMaineSemi" /\
    "NREL-5MW.fst" = "IEA-15-240-RWT-UMaineSemi.fst")) /\
  ((lower "Lite" = "lite" /\ ROSCO_Test_lite = ROSCO_Test_lite /\
    head ["a.so"; "b.so"] = Some "a.so") \/
   (lower "Lite" = "heavy" /\ ROSCO_Test_lite = ROSCO_Test_heavy /\
    head ["a.so"; "b.so"] = Some "a.so") \/
   (lower "Lite" = "binary-comp" /\
    ROSCO_Test_lite = ROSCO_Controller_Comp ["a.so"; "b.so"] /\
    2 <= length ["a.so"; "b.so"] /\ "a.so" = rosco_path rt0) \/
   (lower "Lite" = "discon-comp" /\
    ROSCO_Test_lite = ROSCO_DISCON_Comp [] /\
    2 <= length (@nil string) /\ "a.so" = rosco_path rt0)).
Proof.
  exact (run_testing_returns _ _ _ _ _ _ _ _ run_testing_lite_example).
Defined.

Lemma run_testing_no_binaries_witness :
  run_testing "/" rt0 "IEA-15MW" "HEAVY" [] ["a.IN"; "b.IN"]
  = inl ListIndexError.
Proof.
  exact (run_testing_no_binaries "/" rt0 "IEA-15MW" "HEAVY" ["a.IN"; "b.IN"]
           (or_intror eq_refl)).
Defined.

Lemma run_testing_case_insensitive_witness :
  run_testing "/" rt0 "IEA-15MW" (lower "DISCON-Comp") [] ["a.IN"; "b.IN"]
  = run_testing "/" rt0 "IEA-15MW" "DISCON-Comp" [] ["a.IN"; "b.IN"].
Proof.
  exact (run_testing_case_insensitive "/" rt0 "IEA-15MW" "DISCON-Comp" []
           ["a.IN"; "b.IN"] (or_intror (or_intror (or_intror eq_refl)))).
Defined.

Lemma run_testing_unknown_turbine_witness :
  exists msg,
    run_testing "/" rt0 "nrel-5mw" "bogus" [] [] = inl (ValueError msg) /\
    (msg = too_few_binaries /\ lower "bogus" = "binary-comp" /\
     length (@nil string) < 2
     \/ msg = too_few_discon_files /\ lower "bogus" = "discon-comp" /\
        length (@nil string) < 2
     \/ msg = "nrel-5mw" ++ " is not an available turbine to test!").
Proof.
  apply (run_testing_unknown_turbine "/" rt0 "nrel-5mw" "bogus" [] []);
    discriminate.
Defined.

End RunTestingFacts.
